(** * Vaccine Cold Chain Dashboard: the script [app.py] and its specification

    The dashboard is a Streamlit script over a pandas table.  The table
    engine, the charting engine and the page framework are collaborators of
    the script; this development fixes the part of their contract that the
    script relies on (column lookup, positional slicing, boolean indexing,
    [unique], [mean], [max], [copy]) and embeds the script on top of it.

    Modelling conventions:
    - a cell is a [value]: text, a number, a timestamp or the missing value;
      numbers are exact rationals ([Q]), so the rounding of binary floating
      point sums is not part of the model;
    - a table is a [DataFrame]: the column labels and the rows in order, a
      row being a finite map from column label to cell;
    - a Python exception is the [Raise] side of [result];
    - Python objects live in a store indexed by object identity where
      sharing matters (the filter step). *)

From Stdlib Require Import ZArith QArith Qround Qabs String Ascii List Lia.
From Stdlib Require Import Lqa DecimalString DecimalN DecimalPos.
From stdpp Require Import base option list gmap strings.

Local Open Scope string_scope.
Local Open Scope nat_scope.

(** ** Exceptions and the error monad *)

Inductive exn : Type :=
| FileNotFoundError
| PermissionError
| ParserError
| KeyError (label : string)
| ValueError
| TypeError
| NameError.

Inductive result (A : Type) : Type :=
| Ok (a : A)
| Raise (e : exn).
Arguments Ok {A} a.
Arguments Raise {A} e.

#[global] Instance result_ret : MRet result := fun A a => Ok a.
#[global] Instance result_bind : MBind result := fun A B f m =>
  match m with
  | Ok a => f a
  | Raise e => Raise e
  end.

Definition is_Ok {A} (r : result A) : Prop := ∃ a, r = Ok a.
Definition raises {A} (r : result A) : Prop := ∃ e, r = Raise e.

(** ** The tabular engine *)

Inductive value : Type :=
| VStr (s : string)
| VNum (q : Q)
| VTime (t : Z)
| VNaN.

#[global] Instance Q_eq_dec : EqDecision Q.
Proof. solve_decision. Defined.

#[global] Instance value_eq_dec : EqDecision value.
Proof. solve_decision. Defined.

Abbreviation row := (gmap string value).

Record DataFrame : Type := mkDataFrame {
  columns : list string;
  rows : list row
}.

(** [r[c]] for a row of a frame that has column [c]: a cell the file left
    out reads as the missing value. *)
Definition cell (c : string) (r : row) : value := default VNaN (r !! c).

Definition has_column (df : DataFrame) (c : string) : bool :=
  existsb (String.eqb c) (columns df).

(** [df[c]]: the column as a sequence of cells, [KeyError] without it. *)
Definition getitem (df : DataFrame) (c : string) : result (list value) :=
  if has_column df c then Ok (map (cell c) (rows df)) else Raise (KeyError c).

(** [df[c] = vals] with [vals] aligned to the rows: overwrites the column,
    or appends a new one after the existing labels. *)
Definition setitem (df : DataFrame) (c : string) (vals : list value) : DataFrame :=
  {| columns := if has_column df c then columns df else columns df ++ [c];
     rows := zip_with (fun r v => <[c:=v]> r) (rows df) vals |}.

(** [l[::step]] walks the sequence and keeps an element each time the
    countdown [skip] reaches zero. *)
Fixpoint take_every_from {A : Type} (skip step : nat) (l : list A) : list A :=
  match l with
  | [] => []
  | x :: l' =>
      match skip with
      | O => x :: take_every_from (step - 1) step l'
      | S k => take_every_from k step l'
      end
  end.

Definition slice_step {A : Type} (step : nat) (l : list A) : list A :=
  take_every_from 0 step l.

(** [df.iloc[::step, :]]: every [step]-th row, all columns. *)
Definition iloc_step (step : nat) (df : DataFrame) : DataFrame :=
  {| columns := columns df; rows := slice_step step (rows df) |}.

(** [df.copy()] *)
Definition df_copy (df : DataFrame) : DataFrame :=
  {| columns := columns df; rows := rows df |}.

(** [df.empty]: some axis has length zero. *)
Definition df_empty (df : DataFrame) : bool :=
  match rows df, columns df with
  | [], _ | _, [] => true
  | _, _ => false
  end.

(** [len(df)] *)
Definition len (df : DataFrame) : nat := length (rows df).

(** [series == s] for a text scalar [s], cell by cell. *)
Definition eq_scalar (s : string) (v : value) : bool :=
  match v with
  | VStr t => String.eqb t s
  | _ => false
  end.

(** [df[mask]]: the rows whose mask entry is true. *)
Fixpoint select_rows (rs : list row) (mask : list bool) : list row :=
  match rs, mask with
  | r :: rs', b :: mask' =>
      if b then r :: select_rows rs' mask' else select_rows rs' mask'
  | _, _ => []
  end.

Definition boolean_index (df : DataFrame) (mask : list bool) : DataFrame :=
  {| columns := columns df; rows := select_rows (rows df) mask |}.

(** Equality of cells as the hash table behind [unique] sees it: missing
    values are all alike. *)
Definition value_eqb (a b : value) : bool :=
  match a, b with
  | VStr s, VStr t => String.eqb s t
  | VNum p, VNum q => Qeq_bool p q
  | VTime s, VTime t => Z.eqb s t
  | VNaN, VNaN => true
  | _, _ => false
  end.

(** [series.unique()]: one pass, a cell is emitted the first time it is
    seen. *)
Fixpoint unique_from (seen : list value) (l : list value) : list value :=
  match l with
  | [] => []
  | v :: l' =>
      if existsb (value_eqb v) seen then unique_from seen l'
      else v :: unique_from (v :: seen) l'
  end.

Definition series_unique (l : list value) : list value := unique_from [] l.

(** A number as the script holds it: finite or not-a-number. *)
Inductive num : Type :=
| Fin (q : Q)
| NaN.

(** The numeric cells of a column with the missing ones skipped; text and
    timestamps do not reduce to a number. *)
Fixpoint numeric_cells (l : list value) : result (list Q) :=
  match l with
  | [] => Ok []
  | VNum q :: l' => qs ← numeric_cells l'; mret (q :: qs)
  | VNaN :: l' => numeric_cells l'
  | _ :: _ => Raise TypeError
  end.

Definition Qsum (qs : list Q) : Q := fold_right Qplus 0%Q qs.

Definition Qmax (a b : Q) : Q := if Qle_bool a b then b else a.

(** [series.mean()] (missing values skipped): sum over count. *)
Definition series_mean (l : list value) : result num :=
  qs ← numeric_cells l;
  mret (match qs with
        | [] => NaN
        | _ :: _ => Fin (Qsum qs / inject_Z (Z.of_nat (length qs)))
        end).

(** [series.max()] (missing values skipped). *)
Definition series_max (l : list value) : result num :=
  qs ← numeric_cells l;
  mret (match qs with
        | [] => NaN
        | q :: qs' => Fin (fold_left Qmax qs' q)
        end).

(** ** The file system *)

Inductive file : Type :=
| Unreadable
| Csv (parsed : option DataFrame).

Definition read_csv (fs : gmap string file) (path : string) : result DataFrame :=
  match fs !! path with
  | None => Raise FileNotFoundError
  | Some Unreadable => Raise PermissionError
  | Some (Csv None) => Raise ParserError
  | Some (Csv (Some df)) => Ok df
  end.

(** ** 2. Load data *)

Definition data_path : string := "Vaccine_Cold_Chain_Dashboard_Data.csv".

Section Load.
  (** [pd.to_datetime] on a column: the engine's timestamp parser.  It
      either rejects the column or returns one cell per input cell. *)
Variable to_datetime : list value → result (list value).

Definition load_data (fs : gmap string file) : result DataFrame :=
  df ← read_csv fs data_path;
  col ← getitem df "DateTime";
  parsed ← to_datetime col;
  mret (iloc_step 10 (setitem df "DateTime" parsed)).

End Load.

(** ** 3. Helper function (KPI card) *)

Definition dquote : string := String (ascii_of_nat 34) EmptyString.

(** The four arguments of a call to [custom_metric_card]. *)
Record Card : Type := mkCard {
  label : string;
  value_text : string;
  delta_text : string;
  status : string
}.

Definition card_color (status : string) : string :=
  if String.eqb status "safe" then "#00CC96" else "#EF553B".

Definition card_arrow (status : string) : string :=
  if String.eqb status "safe" then "▼" else "▲".

Definition custom_metric_card (label value delta_text status : string) : string :=
  let color := card_color status in
  let arrow := card_arrow status in
  "
    <div style=" ++ dquote ++ "border: 1px solid #e6e6e6; border-radius: 10px; padding: 15px; background-color: transparent;" ++ dquote ++ ">
        <p style=" ++ dquote ++ "margin: 0; font-size: 14px; color: gray;" ++ dquote ++ ">" ++ label ++ "</p>
        <p style=" ++ dquote ++ "margin: 0; font-size: 28px; font-weight: bold;" ++ dquote ++ ">" ++ value ++ "</p>
        <p style=" ++ dquote ++ "margin: 0; font-size: 14px; color: " ++ color ++ "; font-weight: 500;" ++ dquote ++ ">
            " ++ arrow ++ " " ++ delta_text ++ "
        </p>
    </div>
    ".

Definition card_html (c : Card) : string :=
  custom_metric_card (label c) (value_text c) (delta_text c) (status c).

(** ** Number formatting: [f"{x:.kf}"] and [f"{n}"] *)

Definition round_half_even (q : Q) : Z :=
  let f := Qfloor q in
  match Qcompare (q - inject_Z f) (1 # 2) with
  | Lt => f
  | Gt => (f + 1)%Z
  | Eq => if Z.even f then f else (f + 1)%Z
  end.

Definition digit (d : Z) : string :=
  String (ascii_of_nat (48 + Z.to_nat d)) EmptyString.

(** The [k] low decimal digits of [n], most significant first. *)
Fixpoint low_digits (k : nat) (n : Z) : string :=
  match k with
  | O => EmptyString
  | S k' => low_digits k' (n / 10) ++ digit (n mod 10)
  end.

Definition decimal (n : N) : string := NilZero.string_of_uint (N.to_uint n).

Definition format_f (k : nat) (x : num) : string :=
  match x with
  | NaN => "nan"
  | Fin q =>
      let scale := (10 ^ Z.of_nat k)%Z in
      let n := round_half_even (Qabs q * inject_Z scale) in
      let sign := if Qle_bool 0 q then EmptyString else "-" in
      let whole := decimal (Z.to_N (n / scale)) in
      match k with
      | O => sign ++ whole
      | S _ => sign ++ whole ++ "." ++ low_digits k (n mod scale)
      end
  end.

Definition format_int (n : nat) : string := decimal (N.of_nat n).

(** ** 4. Dashboard layout *)

Definition all_locations : string := "All Locations".

(** The session state: initialised once, then only changed by a click. *)
Definition init_session (state : option string) : string :=
  match state with
  | None => all_locations
  | Some sel => sel
  end.

(** *** Left: buttons *)

Definition location_list (df : DataFrame) : result (list value) :=
  col ← getitem df "Location_Name";
  mret (VStr all_locations :: series_unique col).

Definition button_type (loc : value) (selected_location : string) : string :=
  let is_active := eq_scalar selected_location loc in
  if is_active then "primary" else "secondary".

(** *** Filter data, as a value *)

Definition filter_data (df : DataFrame) (selected_location : string) : result DataFrame :=
  let df_filtered := df_copy df in
  if negb (String.eqb selected_location all_locations) then
    col ← getitem df_filtered "Location_Name";
    mret (boolean_index df_filtered (map (eq_scalar selected_location) col))
  else mret df_filtered.

(** *** Filter data, on the object store

    [df] names an object of the store; [copy] and boolean indexing each make
    a new object, and [df_filtered] is rebound to it. *)

(** The identity given to a newly created object: one not in use. *)
Definition new_object (h : gmap nat DataFrame) : nat := fresh (dom h).

Definition deref (h : gmap nat DataFrame) (p : nat) : result DataFrame :=
  match h !! p with
  | Some t => Ok t
  | None => Raise NameError
  end.

Definition filter_step (h : gmap nat DataFrame) (df : nat) (selected_location : string)
  : result (nat * gmap nat DataFrame) :=
  t ← deref h df;
  let df_filtered := new_object h in
  let h1 := <[df_filtered := df_copy t]> h in
  if negb (String.eqb selected_location all_locations) then
    t1 ← deref h1 df_filtered;
    col ← getitem t1 "Location_Name";
    let df_filtered' := new_object h1 in
    let h2 := <[df_filtered' := boolean_index t1 (map (eq_scalar selected_location) col)]> h1 in
    mret (df_filtered', h2)
  else mret (df_filtered, h1).

(** One filter step per render, for a session that makes the selections
    [sels] one after the other over the same loaded table. *)
Fixpoint filter_steps (h : gmap nat DataFrame) (df : nat) (sels : list string)
  : result (gmap nat DataFrame) :=
  match sels with
  | [] => Ok h
  | L :: sels' => '(_, h') ← filter_step h df L; filter_steps h' df sels'
  end.

(** *** Page elements *)

Inductive chart : Type :=
| ScatterMap
| Line
| Bar.

(** What a section of the page shows: a figure the charting engine draws
    from a frame, a data grid with a style per row, or a warning box. *)
Inductive element : Type :=
| Plot (kind : chart) (data : DataFrame)
| Grid (data : DataFrame) (styles : list string)
| Warning (msg : string).

(** The charting engine rejects a frame without the columns it is told to
    read. *)
Definition require_columns (df : DataFrame) (cs : list string) : result unit :=
  if forallb (has_column df) cs then Ok tt else Raise ValueError.

(** *** Right: map *)

Definition map_section (df_filtered : DataFrame) : result element :=
  if negb (df_empty df_filtered) then
    _ ← require_columns df_filtered ["Latitude"; "Longitude"; "Status"; "Location_Name"];
    mret (Plot ScatterMap df_filtered)
  else mret (Warning "No location data available.").

(** *** C. Populate KPIs *)

Record KPIs : Type := mkKPIs {
  avg_temp : num;
  max_temp : num;
  total_breaches : nat
}.

Definition compute_kpis (df_filtered : DataFrame) : result KPIs :=
  if negb (df_empty df_filtered) then
    pod ← getitem df_filtered "Pod20";
    avg ← series_mean pod;
    pod' ← getitem df_filtered "Pod20";
    mx ← series_max pod';
    st ← getitem df_filtered "Status";
    mret {| avg_temp := avg;
            max_temp := mx;
            total_breaches :=
              len (boolean_index df_filtered (map (eq_scalar "WARNING") st)) |}
  else mret {| avg_temp := Fin 0; max_temp := Fin 0; total_breaches := 0 |}.

(** [x <= q]; any comparison with not-a-number is false. *)
Definition num_le (x : num) (q : Q) : bool :=
  match x with
  | Fin p => Qle_bool p q
  | NaN => false
  end.

Definition num_sub (x : num) (q : Q) : num :=
  match x with
  | Fin p => Fin (p - q)
  | NaN => NaN
  end.

Definition kpi1 (k : KPIs) : Card :=
  if num_le (avg_temp k) (-60) then
    mkCard "Avg Temperature" (format_f 2 (avg_temp k) ++ " °C") "Optimal Range" "safe"
  else
    mkCard "Avg Temperature" (format_f 2 (avg_temp k) ++ " °C")
      ("Too Warm (+" ++ format_f 1 (num_sub (avg_temp k) (-60)) ++ "°C)") "danger".

Definition kpi2 (k : KPIs) : Card :=
  if num_le (max_temp k) (-60) then
    mkCard "Max Temperature" (format_f 2 (max_temp k) ++ " °C") "Within Limit (< -60°C)" "safe"
  else
    mkCard "Max Temperature" (format_f 2 (max_temp k) ++ " °C") "Exceeds Limit" "danger".

Definition kpi3 (k : KPIs) : Card :=
  if Nat.eqb (total_breaches k) 0 then
    mkCard "Breach Events" "0" "No Incidents" "safe"
  else
    mkCard "Breach Events" (format_int (total_breaches k)) "Alerts Detected" "danger".

(** *** D. Charts *)

Definition line_section (df_filtered : DataFrame) : result element :=
  if negb (df_empty df_filtered) then
    _ ← require_columns df_filtered ["DateTime"; "Pod20"];
    mret (Plot Line df_filtered)
  else mret (Warning "No data.").

(** The bar chart is drawn from the per-location means; the grouping and
    the ordering of the bars are the engine's and stay inside [Plot Bar]. *)
Definition bar_section (df_filtered : DataFrame) : result element :=
  if negb (df_empty df_filtered) then
    _ ← getitem df_filtered "Location_Name";
    _ ← getitem df_filtered "Pod20";
    mret (Plot Bar df_filtered)
  else mret (Warning "No data.").

(** *** E. Table *)

Definition highlight_status (val : value) : string :=
  let color := if eq_scalar "WARNING" val then "#EF553B" else "#00CC96" in
  "color: " ++ color ++ "; font-weight: bold".

Definition table_columns : list (string * string) :=
  [("DateTime", "Timestamp"); ("Location_Name", "Location");
   ("Pod20", "Temperature (°C)"); ("Status", "Status")].

(** [df[[...]].copy()] followed by the renaming of the four columns. *)
Definition table_row (r : row) : row :=
  list_to_map (map (fun cn => (cn.2, cell cn.1 r)) table_columns).

Definition table_section (df_filtered : DataFrame) : result element :=
  if negb (df_empty df_filtered) then
    match find (fun c => negb (has_column df_filtered c)) (map fst table_columns) with
    | Some c => Raise (KeyError c)
    | None =>
        let table_df := {| columns := map snd table_columns;
                           rows := map table_row (rows df_filtered) |} in
        mret (Grid table_df (map (fun r => highlight_status (cell "Status" r)) (rows table_df)))
    end
  else mret (Warning "No data to display.").

(** *** One render, from the filter step to the table *)

Record Page : Type := mkPage {
  kpi_html : list string;
  map_view : element;
  line_view : element;
  bar_view : element;
  table_view : element
}.

Definition render (df : DataFrame) (selected_location : string) : result Page :=
  df_filtered ← filter_data df selected_location;
  fig_map ← map_section df_filtered;
  k ← compute_kpis df_filtered;
  let cards := [card_html (kpi1 k); card_html (kpi2 k); card_html (kpi3 k)] in
  fig_temp ← line_section df_filtered;
  fig_bar ← bar_section df_filtered;
  table ← table_section df_filtered;
  mret (mkPage cards fig_map fig_temp fig_bar table).

(** ** The cache around [load_data]

    [@st.cache_data] on a function without arguments: the first call that
    returns stores its table, later calls return the stored table and do
    not run the function; a call that raises stores nothing. *)
Definition cached_load_data (to_datetime : list value → result (list value))
    (cache : option DataFrame) (fs : gmap string file)
  : result DataFrame * option DataFrame :=
  match cache with
  | Some df => (Ok df, cache)
  | None =>
      match load_data to_datetime fs with
      | Ok df => (Ok df, Some df)
      | Raise e => (Raise e, None)
      end
  end.

(** [df = load_data()] at the top of the script, once per rerun; [fss] is
    the file system as each rerun finds it. *)
Fixpoint reruns (to_datetime : list value → result (list value))
    (cache : option DataFrame) (fss : list (gmap string file))
  : list (result DataFrame) :=
  match fss with
  | [] => []
  | fs :: fss' =>
      (cached_load_data to_datetime cache fs).1
      :: reruns to_datetime (cached_load_data to_datetime cache fs).2 fss'
  end.

(** * Specification-level notions *)

(** [ceil_div n d]: the number of multiples of [d] below [n]. *)
Definition ceil_div (n d : nat) : nat := (n + (d - 1)) / d.

(** The columns section 4.1 of the specification requires of the file. *)
Definition required_columns : list string :=
  ["DateTime"; "Location_Name"; "Latitude"; "Longitude"; "Pod20"; "Status"].

(** The distinct texts of [l], each at the place where it is first seen. *)
Fixpoint distinct_first_seen (l : list string) : list string :=
  match l with
  | [] => []
  | x :: l' => x :: filter (λ y, y ≠ x) (distinct_first_seen l')
  end.

(** The position at which [x] is first seen in [l]. *)
Fixpoint first_position (x : string) (l : list string) : option nat :=
  match l with
  | [] => None
  | y :: l' => if decide (x = y) then Some 0 else S <$> first_position x l'
  end.

(** [m] is the maximum of [xs]: one of them, and none is above it. *)
Definition is_maximum (m : Q) (xs : list Q) : Prop :=
  m ∈ xs ∧ ∀ x, x ∈ xs → (x <= m)%Q.






(** A cell that is neither a number nor missing. *)
Definition non_numeric (v : value) : Prop :=
  match v with
  | VStr _ | VTime _ => True
  | VNum _ | VNaN => False
  end.

(** The file lacks one of them. *)
Definition missing_required_column (src : DataFrame) : Prop :=
  ∃ c, c ∈ required_columns ∧ has_column src c = false.

(** * Example data *)

(** A stand-in for the engine's timestamp parser: a text cell of decimal
    digits is read as seconds since the epoch, a timestamp is kept, anything
    else is rejected. *)
Definition epoch_cell (v : value) : option value :=
  match v with
  | VStr s => (fun u => VTime (Z.of_N (N.of_uint u))) <$> NilZero.uint_of_string s
  | VTime t => Some (VTime t)
  | _ => None
  end.

Definition epoch_to_datetime (l : list value) : result (list value) :=
  match mapM epoch_cell l with
  | Some l' => Ok l'
  | None => Raise ValueError
  end.

Definition record (t : nat) (loc : string) (pod : Q) (st : string) : gmap string value :=
  {[ "DateTime" := VStr (format_int t); "Location_Name" := VStr loc;
     "Latitude" := VNum (359 # 10); "Longitude" := VNum (-(840 # 10));
     "Pod20" := VNum pod; "Status" := VStr st ]}.

(** Twenty-one readings at one site. *)
Definition log21 : DataFrame :=
  {| columns := required_columns;
     rows := map (fun t => record t "Factory" (-(70 # 1)) "OK") (seq 0 21) |}.

(** Scenario B of the specification: two readings at "SiteX". *)
Definition site_x : DataFrame :=
  {| columns := required_columns;
     rows := [record 0 "SiteX" (-(55 # 1)) "WARNING"; record 1 "SiteX" (-(65 # 1)) "OK"] |}.

(** Three readings on a route that comes back to its first stage. *)
Definition round_trip : DataFrame :=
  {| columns := required_columns;
     rows := [record 0 "Port" (-(70 # 1)) "OK"; record 1 "Factory" (-(70 # 1)) "OK";
              record 2 "Port" (-(70 # 1)) "OK"] |}.

(** A file without a [Pod20] column. *)
Definition no_pod20 : DataFrame :=
  {| columns := ["DateTime"; "Location_Name"; "Latitude"; "Longitude"; "Status"];
     rows := [delete "Pod20" (record 0 "SiteX" 0 "OK")] |}.


(** Three readings at one site, the second one missing. *)
Definition gappy : DataFrame :=
  {| columns := required_columns;
     rows := [record 0 "SiteX" (-(70 # 1)) "OK";
              <["Pod20" := VNaN]> (record 1 "SiteX" 0 "OK");
              record 2 "SiteX" (-(60 # 1)) "WARNING"] |}.

(** * Properties *)

(** A text that is none of the listed cells is not in the list. *)
Ltac not_listed :=
  let H := fresh "H" in
  intros H;
  repeat (apply elem_of_cons in H; destruct H as [H|H]; [discriminate H|]);
  by apply elem_of_nil in H.

(** ** The error monad *)

Lemma bind_Ok {A B} (f : A → result B) (m : result A) (b : B) :
  m ≫= f = Ok b ↔ ∃ a, m = Ok a ∧ f a = Ok b.
Proof.
  destruct m as [a|e]; simpl; split.
  - intros H. by exists a.
  - by intros (a' & [= <-] & H).
  - intros [=].
  - by intros (a' & [=] & _).
Qed.

Lemma bind_Ok_l {A B} (f : A → result B) (a : A) : Ok a ≫= f = f a.
Proof. reflexivity. Qed.

Lemma Ok_not_raises {A} (r : result A) : is_Ok r → ¬ raises r.
Proof. intros [a ->] [e [=]]. Qed.

Lemma is_Ok_or_raises {A} (r : result A) : is_Ok r ∨ raises r.
Proof. destruct r as [a|e]; [left; by exists a | right; by exists e]. Qed.

Lemma getitem_Ok df c col :
  getitem df c = Ok col ↔ has_column df c = true ∧ col = map (cell c) (rows df).
Proof.
  unfold getitem. destruct (has_column df c); split.
  - by intros [= <-].
  - by intros [_ ->].
  - intros [=].
  - by intros [[=] _].
Qed.

Lemma getitem_has_column df c :
  has_column df c = true → getitem df c = Ok (map (cell c) (rows df)).
Proof. intros H. by apply getitem_Ok. Qed.

Lemma getitem_KeyError df c :
  has_column df c = false → getitem df c = Raise (KeyError c).
Proof. unfold getitem. by intros ->. Qed.

(** ** Positional slicing *)

Lemma take_every_from_lookup {A} (step : nat) (l : list A) :
  0 < step →
  ∀ skip i, take_every_from skip step l !! i = l !! (skip + step * i).
Proof.
  intros Hstep. induction l as [|x l IH]; intros skip i; simpl.
  - done.
  - destruct skip as [|k].
    + destruct i as [|i]; simpl.
      * by rewrite Nat.mul_0_r.
      * rewrite IH. replace (step * S i) with (S (step - 1 + step * i)) by lia.
        done.
    + by rewrite IH.
Qed.

Lemma slice_step_lookup {A} (step : nat) (l : list A) (i : nat) :
  0 < step → slice_step step l !! i = l !! (step * i).
Proof. intros H. unfold slice_step. by rewrite take_every_from_lookup. Qed.

Lemma ceil_div_bounds (n d : nat) :
  0 < d → n ≤ d * ceil_div n d ∧ d * ceil_div n d < n + d.
Proof.
  intros Hd. unfold ceil_div.
  pose proof (Nat.div_mod_eq (n + (d - 1)) d) as E.
  pose proof (Nat.mod_upper_bound (n + (d - 1)) d) as U.
  lia.
Qed.

Lemma ceil_div_unique (n d k : nat) :
  n ≤ d * k → d * k < n + d → k = ceil_div n d.
Proof.
  intros H1 H2. assert (0 < d) as Hd by lia.
  destruct (ceil_div_bounds n d Hd) as [B1 B2]. nia.
Qed.

Lemma slice_step_length {A} (step : nat) (l : list A) :
  0 < step → length (slice_step step l) = ceil_div (length l) step.
Proof.
  intros Hstep. apply ceil_div_unique.
  - destruct (decide (length l ≤ step * length (slice_step step l))) as [|Hn]; [done|].
    exfalso.
    assert (is_Some (l !! (step * length (slice_step step l)))) as Hs
      by (apply lookup_lt_is_Some; lia).
    rewrite <- slice_step_lookup in Hs by done.
    apply lookup_lt_is_Some in Hs. lia.
  - destruct (length (slice_step step l)) as [|k] eqn:E; [lia|].
    assert (is_Some (slice_step step l !! k)) as Hs
      by (apply lookup_lt_is_Some; lia).
    rewrite slice_step_lookup in Hs by done.
    apply lookup_lt_is_Some in Hs. lia.
Qed.

(** ** Loading *)

Lemma read_csv_Ok fs path df :
  read_csv fs path = Ok df ↔ fs !! path = Some (Csv (Some df)).
Proof.
  unfold read_csv. destruct (fs !! path) as [[|[d|]]|]; split; try done.
  - by intros [= ->].
  - by intros [= ->].
Qed.

(** [load_data] returns a table exactly when the file is there, readable,
    a well-formed CSV with a [DateTime] column that the timestamp parser
    accepts; the returned table is then the sliced one. *)
Lemma load_data_Ok to_datetime fs df :
  load_data to_datetime fs = Ok df ↔
  ∃ src parsed,
    fs !! data_path = Some (Csv (Some src)) ∧
    has_column src "DateTime" = true ∧
    to_datetime (map (cell "DateTime") (rows src)) = Ok parsed ∧
    df = iloc_step 10 (setitem src "DateTime" parsed).
Proof.
  unfold load_data. split.
  - intros H. apply bind_Ok in H as (src & Hr & H).
    apply bind_Ok in H as (col & Hc & H).
    apply bind_Ok in H as (parsed & Hp & H).
    apply read_csv_Ok in Hr. apply getitem_Ok in Hc as [Hc ->].
    exists src, parsed. by injection H as <-.
  - intros (src & parsed & Hr & Hc & Hp & ->).
    apply read_csv_Ok in Hr. rewrite Hr. simpl.
    rewrite (getitem_has_column _ _ Hc). simpl. by rewrite Hp.
Qed.

(** C3. For an [N]-row source whose [DateTime] column parses, [load_data]
    returns a table of [ceil (N / 10)] rows: row [i] of the result is the
    source row at position [10 * i] with its [DateTime] cell replaced by the
    parsed timestamp; all other cells, the column labels and the order of
    the rows are those of the source. *)
Theorem load_data_every_tenth_row
    (to_datetime : list value → result (list value))
    (fs : gmap string file) (src : DataFrame) (parsed : list value) :
  fs !! data_path = Some (Csv (Some src)) →
  has_column src "DateTime" = true →
  to_datetime (map (cell "DateTime") (rows src)) = Ok parsed →
  length parsed = length (rows src) →
  ∃ df,
    load_data to_datetime fs = Ok df ∧
    columns df = columns src ∧
    len df = ceil_div (len src) 10 ∧
    (len src ≤ 10 * len df ∧ 10 * len df < len src + 10) ∧
    (∀ i, i < len df →
       ∃ r ts, rows src !! (10 * i) = Some r ∧ parsed !! (10 * i) = Some ts ∧
               rows df !! i = Some (<["DateTime" := ts]> r)) ∧
    (∀ i r, rows df !! i = Some r →
       ∀ c, c ≠ "DateTime" → (rows src !! (10 * i)) ≫= (.!! c) = r !! c).
Proof.
  intros Hfs Hcol Hparse Hlen.
  exists (iloc_step 10 (setitem src "DateTime" parsed)).
  assert (∀ i, rows (iloc_step 10 (setitem src "DateTime" parsed)) !! i =
               (r ← rows src !! (10 * i); ts ← parsed !! (10 * i);
                Some (<["DateTime" := ts]> r))) as Hrow.
  { intros i. simpl. rewrite slice_step_lookup by lia. apply lookup_zip_with. }
  assert (len (iloc_step 10 (setitem src "DateTime" parsed))
          = ceil_div (len src) 10) as Hn.
  { unfold len. simpl. rewrite slice_step_length by lia.
    rewrite length_zip_with. by rewrite Hlen, Nat.min_id. }
  split; [|split; [|split; [|split; [|split]]]].
  - apply load_data_Ok. by exists src, parsed.
  - simpl. by rewrite Hcol.
  - done.
  - rewrite Hn. apply ceil_div_bounds. lia.
  - intros i Hi. rewrite Hn in Hi.
    destruct (ceil_div_bounds (len src) 10) as [_ Hb]; [lia|].
    assert (10 * i < length (rows src)) as Hlt by (unfold len in *; lia).
    destruct (lookup_lt_is_Some_2 (rows src) (10 * i) Hlt) as [r Hr].
    rewrite <- Hlen in Hlt.
    destruct (lookup_lt_is_Some_2 parsed (10 * i) Hlt) as [ts Hts].
    exists r, ts. split_and!; [done..|]. by rewrite Hrow, Hr, Hts.
  - intros i r Hr c Hc. rewrite Hrow in Hr.
    destruct (rows src !! (10 * i)) as [r0|]; [|done].
    destruct (parsed !! (10 * i)) as [ts|]; [|done].
    injection Hr as Hr. subst r. by rewrite lookup_insert_ne.
Qed.

(** C3, on the twenty-one readings of [log21]: three rows are kept. *)
Lemma load_data_every_tenth_row_witness :
  let fs : gmap string file := {[ data_path := Csv (Some log21) ]} in
  ∃ parsed,
    (fs !! data_path = Some (Csv (Some log21)) ∧
     has_column log21 "DateTime" = true ∧
     epoch_to_datetime (map (cell "DateTime") (rows log21)) = Ok parsed ∧
     length parsed = length (rows log21)) ∧
    ∃ df,
      load_data epoch_to_datetime fs = Ok df ∧
      columns df = columns log21 ∧
      len df = ceil_div (len log21) 10 ∧
      (len log21 ≤ 10 * len df ∧ 10 * len df < len log21 + 10) ∧
      (∀ i, i < len df →
         ∃ r ts, rows log21 !! (10 * i) = Some r ∧ parsed !! (10 * i) = Some ts ∧
                 rows df !! i = Some (<["DateTime" := ts]> r)) ∧
      (∀ i r, rows df !! i = Some r →
         ∀ c, c ≠ "DateTime" → (rows log21 !! (10 * i)) ≫= (.!! c) = r !! c).
Proof.
  intros fs. exists (map (fun t => VTime (Z.of_nat t)) (seq 0 21)).
  assert (fs !! data_path = Some (Csv (Some log21))) as H1
    by apply lookup_singleton_eq.
  assert (has_column log21 "DateTime" = true) as H2 by reflexivity.
  assert (epoch_to_datetime (map (cell "DateTime") (rows log21))
          = Ok (map (fun t => VTime (Z.of_nat t)) (seq 0 21))) as H3
    by (vm_compute; reflexivity).
  assert (length (map (fun t => VTime (Z.of_nat t)) (seq 0 21))
          = length (rows log21)) as H4 by reflexivity.
  split; [done|].
  exact (load_data_every_tenth_row epoch_to_datetime fs log21 _ H1 H2 H3 H4).
Defined.

(** C7 as stated fails: a file without the required [Pod20] column is
    loaded, and [load_data] returns its table. *)
Lemma load_data_missing_column_loads :
  let fs : gmap string file := {[ data_path := Csv (Some no_pod20) ]} in
  fs !! data_path = Some (Csv (Some no_pod20)) ∧
  missing_required_column no_pod20 ∧
  ¬ raises (load_data epoch_to_datetime fs).
Proof.
  intros fs. split; [apply lookup_singleton_eq|]. split.
  - exists "Pod20". split; [|reflexivity].
    unfold required_columns. set_solver.
  - apply Ok_not_raises.
    exists (iloc_step 10 (setitem no_pod20 "DateTime" [VTime 0])).
    apply load_data_Ok. exists no_pod20, [VTime 0%Z].
    split; [apply lookup_singleton_eq|]. by split.
Qed.

(** C7, amended. [load_data] raises, and then yields no table, exactly when
    the file is missing, unreadable, not a well-formed CSV, without a
    [DateTime] column, or with a [DateTime] column the timestamp parser
    rejects.  (The other required columns are not looked at.) *)
Theorem load_data_raises
    (to_datetime : list value → result (list value)) (fs : gmap string file) :
  (raises (load_data to_datetime fs) ↔
     fs !! data_path = None ∨
     fs !! data_path = Some Unreadable ∨
     fs !! data_path = Some (Csv None) ∨
     ∃ src, fs !! data_path = Some (Csv (Some src)) ∧
            (has_column src "DateTime" = false ∨
             raises (to_datetime (map (cell "DateTime") (rows src))))) ∧
  (raises (load_data to_datetime fs) → ∀ df, load_data to_datetime fs ≠ Ok df).
Proof.
  split; [|by intros [e ->] df].
  unfold load_data, read_csv.
  destruct (fs !! data_path) as [[|[src|]]|] eqn:Hfs; simpl.
  - split; [intros _; by right; left | intros _; by eexists].
  - unfold getitem. destruct (has_column src "DateTime") eqn:Hc; simpl.
    + destruct (to_datetime _) as [parsed|e] eqn:Hp; simpl.
      * split; [by intros [e [=]]|].
        intros [[=]|[[=]|[[=]|(src' & [= <-] & [Hc'|[e He]])]]]; congruence.
      * split; [|by eexists]. intros _. right; right; right.
        exists src. split; [done|]. right. rewrite Hp. by eexists.
    + split; [|by eexists]. intros _. right; right; right.
      exists src. split; [done|]. by left.
  - split; [intros _; by right; right; left | intros _; by eexists].
  - split; [intros _; by left | intros _; by eexists].
Qed.

(** C7 amended, on an empty file system: the file is missing. *)
Lemma load_data_raises_witness :
  (∅ : gmap string file) !! data_path = None ∧
  raises (load_data epoch_to_datetime ∅).
Proof.
  split; [apply lookup_empty|].
  apply (load_data_raises epoch_to_datetime ∅). left. apply lookup_empty.
Defined.

(** Where the missing column does surface: the render of that table stops
    at the KPIs with a [KeyError], while a header-only file without [Pod20]
    renders its placeholders. *)
Example render_missing_column :
  render no_pod20 "All Locations" = Raise (KeyError "Pod20").
Proof. reflexivity. Qed.

Example render_missing_column_no_rows :
  is_Ok (render {| columns := columns no_pod20; rows := [] |} "All Locations").
Proof. by eexists. Qed.

(** ** Boolean indexing *)

Lemma eq_scalar_true (s : string) (v : value) : eq_scalar s v = true ↔ v = VStr s.
Proof.
  destruct v as [t|q|t|]; simpl.
  - rewrite String.eqb_eq. split; [by intros ->|by intros [= ->]].
  - split; intros [=].
  - split; intros [=].
  - split; intros [=].
Qed.

Lemma eq_scalar_false (s : string) (v : value) : eq_scalar s v = false ↔ v ≠ VStr s.
Proof.
  rewrite <- eq_scalar_true. destruct (eq_scalar s v); split; congruence.
Qed.

Lemma select_rows_sublist (rs : list row) (mask : list bool) :
  select_rows rs mask `sublist_of` rs.
Proof.
  revert mask. induction rs as [|r rs IH]; intros [|b mask]; simpl.
  - constructor.
  - constructor.
  - apply sublist_nil_l.
  - destruct b; [by apply sublist_skip | by apply sublist_cons].
Qed.

Lemma select_rows_filter (P : row → Prop) `{!∀ r, Decision (P r)}
    (p : row → bool) (rs : list row) :
  (∀ r, p r = true ↔ P r) → select_rows rs (map p rs) = filter P rs.
Proof.
  intros Hp. induction rs as [|r rs IH]; simpl; [done|].
  rewrite filter_cons, IH. destruct (p r) eqn:E.
  - apply Hp in E. by rewrite decide_True.
  - rewrite decide_False; [done|]. rewrite <- Hp. congruence.
Qed.

(** The rows kept by [df[df[c] == s]] are the rows whose cell [c] is the
    text [s]. *)
Lemma select_rows_eq_scalar (c s : string) (rs : list row) :
  select_rows rs (map (eq_scalar s) (map (cell c) rs))
  = filter (λ r, cell c r = VStr s) rs.
Proof.
  rewrite map_map. apply select_rows_filter. intros r. apply eq_scalar_true.
Qed.

Lemma length_filter_partition {A} (P : A → Prop) `{!∀ x, Decision (P x)} (l : list A) :
  length (filter P l) + length (filter (λ x, ¬ P x) l) = length l.
Proof.
  rewrite <- length_app. apply Permutation_length, filter_app_complement.
Qed.

(** ** The filter step *)

Lemma df_copy_id df : df_copy df = df.
Proof. by destruct df. Qed.

Lemma filter_data_all df : filter_data df all_locations = Ok df.
Proof. unfold filter_data. simpl. by rewrite df_copy_id. Qed.

Lemma filter_data_location df L :
  L ≠ all_locations →
  has_column df "Location_Name" = true →
  filter_data df L =
    Ok {| columns := columns df;
          rows := filter (λ r, cell "Location_Name" r = VStr L) (rows df) |}.
Proof.
  intros HL Hc. unfold filter_data.
  apply String.eqb_neq in HL. rewrite HL. simpl.
  rewrite df_copy_id, (getitem_has_column _ _ Hc). simpl.
  unfold boolean_index. by rewrite select_rows_eq_scalar.
Qed.

Lemma filter_data_KeyError df L :
  L ≠ all_locations →
  has_column df "Location_Name" = false →
  filter_data df L = Raise (KeyError "Location_Name").
Proof.
  intros HL Hc. unfold filter_data.
  apply String.eqb_neq in HL. rewrite HL. simpl.
  by rewrite df_copy_id, (getitem_KeyError _ _ Hc).
Qed.

(** C6. Filtering by "All Locations" returns the full table: same columns,
    same rows, same order. *)
Theorem filter_all_locations_identity (df : DataFrame) :
  ∃ df_filtered,
    filter_data df "All Locations" = Ok df_filtered ∧
    df_filtered = df ∧
    rows df_filtered = rows df ∧
    columns df_filtered = columns df.
Proof. exists df. split; [apply filter_data_all | done]. Qed.

(** C5. For a selection [L] other than "All Locations", every row of the
    filtered table has [Location_Name == L], and the rows kept together
    with the rows whose [Location_Name] is not [L] count up to the table. *)
Theorem filter_partition (df : DataFrame) (L : string) :
  L ≠ "All Locations" →
  has_column df "Location_Name" = true →
  ∃ df_filtered,
    filter_data df L = Ok df_filtered ∧
    (∀ r, r ∈ rows df_filtered → cell "Location_Name" r = VStr L) ∧
    getitem df_filtered "Location_Name" = Ok (replicate (len df_filtered) (VStr L)) ∧
    len df_filtered
      + length (filter (λ r, cell "Location_Name" r ≠ VStr L) (rows df))
    = len df.
Proof.
  intros HL Hc. eexists. split; [by apply filter_data_location|].
  unfold len. simpl. split; [|split].
  - intros r Hr. by apply list_elem_of_filter in Hr as [Hr _].
  - apply getitem_Ok. split; [exact Hc|]. simpl.
    induction (rows df) as [|r rs IH]; [done|].
    rewrite filter_cons. case_decide as Hr; simpl; [by rewrite Hr, IH | done].
  - apply length_filter_partition.
Qed.

(** C5 on Scenario B's table. *)
Lemma filter_partition_witness :
  ("SiteX" ≠ "All Locations" ∧ has_column site_x "Location_Name" = true) ∧
  ∃ df_filtered,
    filter_data site_x "SiteX" = Ok df_filtered ∧
    (∀ r, r ∈ rows df_filtered → cell "Location_Name" r = VStr "SiteX") ∧
    getitem df_filtered "Location_Name" = Ok (replicate (len df_filtered) (VStr "SiteX")) ∧
    len df_filtered
      + length (filter (λ r, cell "Location_Name" r ≠ VStr "SiteX") (rows site_x))
    = len site_x.
Proof.
  assert ("SiteX" ≠ "All Locations") as H1 by discriminate.
  assert (has_column site_x "Location_Name" = true) as H2 by reflexivity.
  split; [done|]. exact (filter_partition site_x "SiteX" H1 H2).
Defined.

(** C10. Whatever the selection, the filtered table is a subsequence of the
    table: the rows kept are in their original relative order, and a row
    that is kept occurs as often as it does in the table. *)
Theorem filter_subsequence (df : DataFrame) (L : string) :
  L = "All Locations" ∨ has_column df "Location_Name" = true →
  ∃ df_filtered,
    filter_data df L = Ok df_filtered ∧
    columns df_filtered = columns df ∧
    rows df_filtered `sublist_of` rows df ∧
    (∀ r, r ∈ rows df_filtered →
       length (filter (r =.) (rows df_filtered)) = length (filter (r =.) (rows df))).
Proof.
  intros H. destruct (decide (L = all_locations)) as [->|HL].
  - exists df. by rewrite filter_data_all.
  - destruct H as [?|Hc]; [done|].
    eexists. split; [by apply filter_data_location|]. simpl.
    split; [done|]. split; [apply sublist_filter|].
    intros r Hr. apply list_elem_of_filter in Hr as [Hr _].
    rewrite list_filter_filter. f_equal. apply list_filter_iff.
    intros r'. split; [by intros [? _] | by intros ->].
Qed.

(** C10 on Scenario B's table, for a location that is not in it. *)
Lemma filter_subsequence_witness :
  ("Nowhere" = "All Locations" ∨ has_column site_x "Location_Name" = true) ∧
  ∃ df_filtered,
    filter_data site_x "Nowhere" = Ok df_filtered ∧
    columns df_filtered = columns site_x ∧
    rows df_filtered `sublist_of` rows site_x ∧
    (∀ r, r ∈ rows df_filtered →
       length (filter (r =.) (rows df_filtered)) = length (filter (r =.) (rows site_x))).
Proof.
  assert ("Nowhere" = "All Locations" ∨ has_column site_x "Location_Name" = true)
    as H by (right; reflexivity).
  split; [done|]. exact (filter_subsequence site_x "Nowhere" H).
Defined.

(** ** The empty filtered table *)

Lemma filter_none {A} (P : A → Prop) `{!∀ x, Decision (P x)} (l : list A) :
  (∀ x, x ∈ l → ¬ P x) → filter P l = [].
Proof.
  intros Hno. induction l as [|x l IH]; [done|].
  rewrite filter_cons_False; [|apply Hno; by left].
  apply IH. intros y Hy. apply Hno. by right.
Qed.

(** C4 as stated fails for the selection "All Locations": it does not occur
    in the [Location_Name] column of Scenario B's table, and the filtered
    table is the whole table. *)
Lemma absent_selection_not_empty :
  ∃ col df_filtered,
    getitem site_x "Location_Name" = Ok col ∧
    (VStr "All Locations" ∉ col) ∧
    filter_data site_x "All Locations" = Ok df_filtered ∧
    df_empty df_filtered = false ∧
    len df_filtered = 2.
Proof.
  exists [VStr "SiteX"; VStr "SiteX"], site_x.
  split; [reflexivity|]. split.
  - not_listed.
  - split; [apply filter_data_all|]. by split.
Qed.

(** C4, amended. For a selection [L] other than "All Locations" that does
    not occur in the [Location_Name] column, the filtered table is empty and
    the render goes through: the map, both charts and the table show their
    placeholder, the KPIs are (0, 0, 0), both temperature cards are
    "danger" and the breach card is "safe". *)
Theorem absent_location_renders_placeholders
    (df : DataFrame) (L : string) (col : list value) :
  L ≠ "All Locations" →
  getitem df "Location_Name" = Ok col →
  VStr L ∉ col →
  ∃ df_filtered k page,
    filter_data df L = Ok df_filtered ∧
    rows df_filtered = [] ∧
    df_empty df_filtered = true ∧
    compute_kpis df_filtered = Ok k ∧
    k = {| avg_temp := Fin 0; max_temp := Fin 0; total_breaches := 0 |} ∧
    status (kpi1 k) = "danger" ∧
    status (kpi2 k) = "danger" ∧
    status (kpi3 k) = "safe" ∧
    render df L = Ok page ∧
    kpi_html page = [card_html (kpi1 k); card_html (kpi2 k); card_html (kpi3 k)] ∧
    map_view page = Warning "No location data available." ∧
    line_view page = Warning "No data." ∧
    bar_view page = Warning "No data." ∧
    table_view page = Warning "No data to display.".
Proof.
  intros HL Hcol Hnot. apply getitem_Ok in Hcol as [Hc ->].
  assert (filter (λ r, cell "Location_Name" r = VStr L) (rows df) = []) as Hnil.
  { apply filter_none. intros r Hr E. apply Hnot.
    rewrite <- E. apply list_elem_of_In, in_map, list_elem_of_In, Hr. }
  pose proof (filter_data_location df L HL Hc) as Hf. rewrite Hnil in Hf.
  eexists _, _, _. split; [exact Hf|].
  split; [done|]. split; [done|]. split; [reflexivity|]. split; [done|].
  split; [done|]. split; [done|]. split; [done|].
  split; [unfold render; rewrite Hf; reflexivity|]. by repeat split.
Qed.

(** C4 amended, on Scenario B's table and a location that is not in it. *)
Lemma absent_location_renders_placeholders_witness :
  ("Nowhere" ≠ "All Locations" ∧
   getitem site_x "Location_Name" = Ok [VStr "SiteX"; VStr "SiteX"] ∧
   (VStr "Nowhere" ∉ [VStr "SiteX"; VStr "SiteX"])) ∧
  ∃ df_filtered k page,
    filter_data site_x "Nowhere" = Ok df_filtered ∧
    rows df_filtered = [] ∧
    df_empty df_filtered = true ∧
    compute_kpis df_filtered = Ok k ∧
    k = {| avg_temp := Fin 0; max_temp := Fin 0; total_breaches := 0 |} ∧
    status (kpi1 k) = "danger" ∧
    status (kpi2 k) = "danger" ∧
    status (kpi3 k) = "safe" ∧
    render site_x "Nowhere" = Ok page ∧
    kpi_html page = [card_html (kpi1 k); card_html (kpi2 k); card_html (kpi3 k)] ∧
    map_view page = Warning "No location data available." ∧
    line_view page = Warning "No data." ∧
    bar_view page = Warning "No data." ∧
    table_view page = Warning "No data to display.".
Proof.
  assert ("Nowhere" ≠ "All Locations") as H1 by discriminate.
  assert (getitem site_x "Location_Name" = Ok [VStr "SiteX"; VStr "SiteX"]) as H2
    by reflexivity.
  assert (VStr "Nowhere" ∉ [VStr "SiteX"; VStr "SiteX"]) as H3.
  { not_listed. }
  split; [done|].
  exact (absent_location_renders_placeholders site_x "Nowhere" _ H1 H2 H3).
Defined.

(** ** The filter step on the object store *)

Lemma new_object_fresh (h : gmap nat DataFrame) : new_object h ∉ dom h.
Proof. unfold new_object. apply is_fresh. Qed.

Lemma lookup_insert_new_object (h : gmap nat DataFrame) (t : DataFrame) (p : nat) :
  p ∈ dom h → <[new_object h := t]> h !! p = h !! p.
Proof.
  intros Hp. apply lookup_insert_ne. intros E.
  apply (new_object_fresh h). by rewrite E.
Qed.

Lemma filter_step_frame
    (h : gmap nat DataFrame) (df : nat) (t : DataFrame) (L : string) :
  h !! df = Some t →
  L = "All Locations" ∨ has_column t "Location_Name" = true →
  ∃ df_filtered h' t',
    filter_step h df L = Ok (df_filtered, h') ∧
    filter_data t L = Ok t' ∧
    h' !! df_filtered = Some t' ∧
    (df_filtered ∉ dom h) ∧
    df_filtered ≠ df ∧
    h' !! df = Some t ∧
    (∀ p, p ∈ dom h → h' !! p = h !! p).
Proof.
  intros Hdf Hsel.
  assert (df ∈ dom h) as Hdom by (apply elem_of_dom; by eexists).
  unfold filter_step, deref. rewrite Hdf. simpl. rewrite df_copy_id.
  pose proof (new_object_fresh h) as Hp1.
  pose proof (lookup_insert_new_object h t) as Hf1.
  set (p1 := new_object h) in *. set (h1 := <[p1 := t]> h) in *.
  assert (h1 !! p1 = Some t) as Hl1 by apply lookup_insert_eq.
  destruct (decide (L = all_locations)) as [->|HL].
  - simpl. exists p1, h1, t. split_and!; try done.
    + apply filter_data_all.
    + intros E. apply Hp1. by rewrite E.
    + by rewrite Hf1.
  - destruct Hsel as [?|Hc]; [done|].
    pose proof HL as HL'. apply String.eqb_neq in HL'. rewrite HL'. simpl.
    rewrite Hl1. simpl. rewrite (getitem_has_column _ _ Hc). simpl.
    set (t' := boolean_index t _).
    pose proof (new_object_fresh h1) as Hp2.
    pose proof (lookup_insert_new_object h1 t') as Hf2.
    set (p2 := new_object h1) in *. set (h2 := <[p2 := t']> h1) in *.
    assert (∀ p, p ∈ dom h → p ∈ dom h1) as Hsub.
    { intros p Hp. apply elem_of_dom. rewrite Hf1 by done. by apply elem_of_dom. }
    exists p2, h2, t'. split_and!; try done.
    + unfold filter_data. rewrite HL'. simpl.
      by rewrite df_copy_id, (getitem_has_column _ _ Hc).
    + apply lookup_insert_eq.
    + intros Hp. by apply Hp2, Hsub.
    + intros E. apply Hp2, Hsub. by rewrite E.
    + rewrite Hf2 by by apply Hsub. by rewrite Hf1.
    + intros p Hp. rewrite Hf2 by by apply Hsub. by rewrite Hf1.
Qed.

Lemma filter_steps_frame
    (h : gmap nat DataFrame) (df : nat) (t : DataFrame) (sels : list string) :
  h !! df = Some t →
  has_column t "Location_Name" = true →
  ∃ h', filter_steps h df sels = Ok h' ∧
        h' !! df = Some t ∧
        (∀ p, p ∈ dom h → h' !! p = h !! p).
Proof.
  intros Hdf Hc. revert h Hdf.
  induction sels as [|L sels IH]; intros h Hdf; simpl.
  - by exists h.
  - destruct (filter_step_frame h df t L Hdf (or_intror Hc))
      as (p & h1 & t1 & -> & _ & _ & _ & _ & Hdf1 & Hframe1).
    rewrite bind_Ok_l.
    destruct (IH h1 Hdf1) as (h' & -> & Hdf' & Hframe').
    exists h'. split_and!; [done..|].
    intros q Hq. rewrite Hframe'; [by apply Hframe1|].
    apply elem_of_dom. rewrite Hframe1 by done. by apply elem_of_dom.
Qed.

(** C9. The filter step leaves the loaded table as it was: the object [df]
    names holds the same table afterwards, no object of the store is
    changed, and the filtered table is a new object; and so it is after any
    number of renders. *)
Theorem filter_step_preserves_table
    (h : gmap nat DataFrame) (df : nat) (t : DataFrame) (L : string) :
  h !! df = Some t →
  L = "All Locations" ∨ has_column t "Location_Name" = true →
  (∃ df_filtered h' t',
     filter_step h df L = Ok (df_filtered, h') ∧
     filter_data t L = Ok t' ∧
     h' !! df_filtered = Some t' ∧
     (df_filtered ∉ dom h) ∧
     df_filtered ≠ df ∧
     h' !! df = Some t ∧
     (∀ p, p ∈ dom h → h' !! p = h !! p)) ∧
  (has_column t "Location_Name" = true →
   ∀ sels, ∃ h', filter_steps h df sels = Ok h' ∧
                 h' !! df = Some t ∧
                 (∀ p, p ∈ dom h → h' !! p = h !! p)).
Proof.
  intros Hdf Hsel. split.
  - by apply filter_step_frame.
  - intros Hc sels. by apply filter_steps_frame.
Qed.

(** C9 on a store that holds Scenario B's table as object 0. *)
Lemma filter_step_preserves_table_witness :
  let h : gmap nat DataFrame := {[ 0 := site_x ]} in
  (h !! 0 = Some site_x ∧
   ("SiteX" = "All Locations" ∨ has_column site_x "Location_Name" = true)) ∧
  (∃ df_filtered h' t',
     filter_step h 0 "SiteX" = Ok (df_filtered, h') ∧
     filter_data site_x "SiteX" = Ok t' ∧
     h' !! df_filtered = Some t' ∧
     (df_filtered ∉ dom h) ∧
     df_filtered ≠ 0 ∧
     h' !! 0 = Some site_x ∧
     (∀ p, p ∈ dom h → h' !! p = h !! p)) ∧
  (∃ h', filter_steps h 0 ["SiteX"; "Nowhere"; "All Locations"] = Ok h' ∧
         h' !! 0 = Some site_x ∧
         (∀ p, p ∈ dom h → h' !! p = h !! p)).
Proof.
  intros h.
  assert (h !! 0 = Some site_x) as H1 by apply lookup_singleton_eq.
  assert (has_column site_x "Location_Name" = true) as H3 by reflexivity.
  assert ("SiteX" = "All Locations" ∨ has_column site_x "Location_Name" = true)
    as H2 by (by right).
  split; [done|].
  destruct (filter_step_preserves_table h 0 site_x "SiteX" H1 H2) as [K1 K2].
  split; [exact K1 | exact (K2 H3 _)].
Defined.

(** ** Key figures *)


Lemma Qmax_cases (a b : Q) :
  (Qmax a b = b ∧ (a <= b)%Q) ∨ (Qmax a b = a ∧ (b <= a)%Q).
Proof.
  unfold Qmax. destruct (Qle_bool a b) eqn:E.
  - left. split; [done|]. by apply Qle_bool_iff.
  - right. split; [done|]. apply Qlt_le_weak, Qnot_le_lt.
    rewrite <- Qle_bool_iff. congruence.
Qed.

Lemma fold_left_Qmax_is_maximum (qs : list Q) (q : Q) :
  is_maximum (fold_left Qmax qs q) (q :: qs).
Proof.
  revert q. induction qs as [|x qs IH]; intros q; simpl.
  - split; [by left|]. intros y Hy. apply list_elem_of_singleton in Hy as ->.
    apply Qle_refl.
  - destruct (IH (Qmax q x)) as [Hin Hub]. split.
    + apply elem_of_cons in Hin as [Hin|Hin]; [|by right; right].
      rewrite Hin. destruct (Qmax_cases q x) as [[-> _]|[-> _]];
        [right; by left | by left].
    + intros y Hy.
      assert (Qmax q x <= fold_left Qmax qs (Qmax q x))%Q as Hm
        by (apply Hub; by left).
      apply elem_of_cons in Hy as [->|Hy].
      * eapply Qle_trans; [|exact Hm].
        destruct (Qmax_cases q x) as [[-> ?]|[-> ?]]; [done|apply Qle_refl].
      * apply elem_of_cons in Hy as [->|Hy]; [|apply Hub; by right].
        eapply Qle_trans; [|exact Hm].
        destruct (Qmax_cases q x) as [[-> ?]|[-> ?]]; [apply Qle_refl|done].
Qed.



Lemma compute_kpis_empty df :
  df_empty df = true →
  compute_kpis df = Ok {| avg_temp := Fin 0; max_temp := Fin 0; total_breaches := 0 |}.
Proof. intros H. unfold compute_kpis. by rewrite H. Qed.



(** ** Number formatting *)






(** ** Classification of the cards *)









(** ** The location list *)

Lemma existsb_value_eqb_VStr (x : string) (seen : list string) :
  existsb (value_eqb (VStr x)) (map VStr seen) = true ↔ x ∈ seen.
Proof.
  induction seen as [|y seen IH]; simpl.
  - split; [intros [=] | by intros ?%elem_of_nil].
  - rewrite orb_true_iff, IH, String.eqb_eq, elem_of_cons. done.
Qed.

Lemma filter_all {A} (P : A → Prop) `{!∀ x, Decision (P x)} (l : list A) :
  (∀ x, x ∈ l → P x) → filter P l = l.
Proof.
  intros Hall. induction l as [|x l IH]; [done|].
  rewrite filter_cons_True by (apply Hall; by left).
  f_equal. apply IH. intros y Hy. apply Hall. by right.
Qed.

(** The one-pass [unique] with its set of seen cells computes the distinct
    texts in first-seen order, less those seen before. *)
Lemma unique_from_strings (seen l : list string) :
  unique_from (map VStr seen) (map VStr l)
  = map VStr (filter (λ y, y ∉ seen) (distinct_first_seen l)).
Proof.
  revert seen. induction l as [|x l IH]; intros seen; [done|].
  cbn [map unique_from distinct_first_seen].
  destruct (decide (x ∈ seen)) as [Hin|Hout].
  - rewrite (proj2 (existsb_value_eqb_VStr x seen) Hin), IH.
    rewrite filter_cons_False by (intros H; by apply H).
    rewrite list_filter_filter. f_equal. apply list_filter_iff.
    intros y. split; [|by intros [? _]]. intros Hy. split; [done|].
    by intros ->.
  - destruct (existsb _ _) eqn:E; [by apply existsb_value_eqb_VStr in E|].
    change (VStr x :: map VStr seen) with (map VStr (x :: seen)). rewrite IH.
    rewrite filter_cons_True by done. cbn [map]. f_equal.
    rewrite list_filter_filter. f_equal. apply list_filter_iff.
    intros y. rewrite not_elem_of_cons. tauto.
Qed.

Lemma series_unique_strings (l : list string) :
  series_unique (map VStr l) = map VStr (distinct_first_seen l).
Proof.
  unfold series_unique. change [] with (map VStr []) at 1.
  rewrite (unique_from_strings [] l). f_equal.
  apply filter_all. intros x _. apply not_elem_of_nil.
Qed.

Lemma elem_of_distinct_first_seen (l : list string) (x : string) :
  x ∈ distinct_first_seen l ↔ x ∈ l.
Proof.
  induction l as [|y l IH]; simpl; [done|].
  rewrite !elem_of_cons, list_elem_of_filter, IH.
  destruct (decide (x = y)); tauto.
Qed.

Lemma NoDup_distinct_first_seen (l : list string) : NoDup (distinct_first_seen l).
Proof.
  induction l as [|y l IH]; simpl; [constructor|].
  apply NoDup_cons. split; [|by apply NoDup_filter].
  rewrite list_elem_of_filter. by intros [? _].
Qed.

Lemma first_position_is_Some (x : string) (l : list string) :
  x ∈ l → is_Some (first_position x l).
Proof.
  induction l as [|y l IH]; simpl; [by intros ?%elem_of_nil|].
  intros Hin. case_decide; [by eexists|].
  apply elem_of_cons in Hin as [->|Hin]; [done|].
  destruct (IH Hin) as [a ->]. by eexists.
Qed.

(** [first_position] is the least position that holds [x]. *)
Lemma first_position_least (x : string) (l : list string) (a : nat) :
  first_position x l = Some a →
  l !! a = Some x ∧ ∀ b, b < a → l !! b ≠ Some x.
Proof.
  revert a. induction l as [|y l IH]; intros a; simpl; [done|].
  case_decide as E.
  - intros [= <-]. subst. split; [done|]. lia.
  - destruct (first_position x l) as [a'|]; [|done]. intros [= <-].
    destruct (IH a' eq_refl) as [H1 H2]. split; [done|].
    intros [|b] Hb; simpl; [congruence|]. apply H2. lia.
Qed.

Lemma lookup_lt_sublist {A} (l : list A) (i j : nat) (x y : A) :
  l !! i = Some x → l !! j = Some y → i < j → [x; y] `sublist_of` l.
Proof.
  revert i j. induction l as [|z l IH]; intros i j Hi Hj Hlt; [done|].
  destruct j as [|j]; [lia|]. destruct i as [|i]; simpl in *.
  - injection Hi as ->. apply sublist_skip, singleton_sublist_l.
    by eapply list_elem_of_lookup_2.
  - apply sublist_cons. eapply IH; [done..|lia].
Qed.

Lemma distinct_first_seen_order (l : list string) (x y : string) :
  [x; y] `sublist_of` distinct_first_seen l →
  ∃ a b, first_position x l = Some a ∧ first_position y l = Some b ∧ a < b.
Proof.
  induction l as [|z l IH]; simpl.
  - by intros [=]%sublist_nil_r.
  - intros [Hsub|(l' & [= -> <-] & Hsub)]%sublist_cons_r.
    + assert (x ≠ z ∧ y ≠ z) as [Hx Hy].
      { split.
        - assert (x ∈ [x; y]) as Hin by (by left).
          apply (elem_of_sublist _ _ _ Hin) in Hsub.
          by apply list_elem_of_filter in Hsub as [? _].
        - assert (y ∈ [x; y]) as Hin by (right; by left).
          apply (elem_of_sublist _ _ _ Hin) in Hsub.
          by apply list_elem_of_filter in Hsub as [? _]. }
      destruct IH as (a & b & -> & -> & Hab).
      { etrans; [exact Hsub|]. apply sublist_filter. }
      rewrite !decide_False by done. exists (S a), (S b). simpl.
      split_and!; [done..|lia].
    + apply singleton_sublist_l, list_elem_of_filter in Hsub as [Hy Hin].
      apply (proj1 (elem_of_distinct_first_seen _ _)) in Hin.
      apply first_position_is_Some in Hin as [b Hb].
      rewrite decide_True by done. rewrite decide_False by done.
      rewrite Hb. exists 0, (S b). simpl. split_and!; [done..|lia].
Qed.

(** C8. The selectable locations are "All Locations" followed by the
    distinct [Location_Name] values of the table, in the order in which the
    table first shows them: no value twice, every value of the column, and
    a value comes before another exactly as their first occurrences do. *)
Theorem location_list_first_seen (df : DataFrame) (locs : list string) :
  getitem df "Location_Name" = Ok (map VStr locs) →
  ∃ names : list string,
    location_list df = Ok (VStr "All Locations" :: map VStr names) ∧
    names = distinct_first_seen locs ∧
    NoDup names ∧
    (∀ s, s ∈ names ↔ s ∈ locs) ∧
    (∀ i j x y, names !! i = Some x → names !! j = Some y → i < j →
       ∃ a b, first_position x locs = Some a ∧
              first_position y locs = Some b ∧ a < b).
Proof.
  intros Hcol. exists (distinct_first_seen locs). split_and!.
  - unfold location_list. rewrite Hcol, bind_Ok_l. by rewrite series_unique_strings.
  - done.
  - apply NoDup_distinct_first_seen.
  - apply elem_of_distinct_first_seen.
  - intros i j x y Hi Hj Hlt. apply distinct_first_seen_order.
    by eapply lookup_lt_sublist.
Qed.

(** C8 on the round trip Port, Factory, Port. *)
Lemma location_list_first_seen_witness :
  getitem round_trip "Location_Name" = Ok (map VStr ["Port"; "Factory"; "Port"]) ∧
  ∃ names : list string,
    location_list round_trip = Ok (VStr "All Locations" :: map VStr names) ∧
    names = distinct_first_seen ["Port"; "Factory"; "Port"] ∧
    NoDup names ∧
    (∀ s, s ∈ names ↔ s ∈ ["Port"; "Factory"; "Port"]) ∧
    (∀ i j x y, names !! i = Some x → names !! j = Some y → i < j →
       ∃ a b, first_position x ["Port"; "Factory"; "Port"] = Some a ∧
              first_position y ["Port"; "Factory"; "Port"] = Some b ∧ a < b).
Proof.
  assert (getitem round_trip "Location_Name"
          = Ok (map VStr ["Port"; "Factory"; "Port"])) as H by reflexivity.
  split; [done|]. exact (location_list_first_seen round_trip _ H).
Defined.

(** The list is in first-seen order, not sorted: "Port" stays ahead of
    "Factory". *)
Example location_list_round_trip :
  location_list round_trip = Ok [VStr "All Locations"; VStr "Port"; VStr "Factory"].
Proof. reflexivity. Qed.

(** ** Scenario B, end to end

    Selecting "SiteX" on the two readings -55 (WARNING) and -65 (OK): the
    average is the boundary value and "safe", the maximum is "danger", and
    the one breach is shown. *)
Example scenario_b :
  (df_filtered ← filter_data site_x "SiteX";
   k ← compute_kpis df_filtered;
   mret (kpi1 k, kpi2 k, kpi3 k))
  = Ok (mkCard "Avg Temperature" "-60.00 °C" "Optimal Range" "safe",
        mkCard "Max Temperature" "-55.00 °C" "Exceeds Limit" "danger",
        mkCard "Breach Events" "1" "Alerts Detected" "danger").
Proof. vm_compute. reflexivity. Qed.

(** * Further properties of the script *)

(** ** Loading: the rows that are skipped *)



(** ** The cache *)

Lemma reruns_cached to_datetime df fss :
  reruns to_datetime (Some df) fss = replicate (length fss) (Ok df).
Proof. induction fss as [|fs fss IH]; simpl; [done|]. by rewrite IH. Qed.

Lemma reruns_length to_datetime cache fss :
  length (reruns to_datetime cache fss) = length fss.
Proof.
  revert cache. induction fss as [|fs fss IH]; intros cache; simpl; [done|].
  by rewrite IH.
Qed.

Lemma reruns_sticky to_datetime cache fss i j df :
  reruns to_datetime cache fss !! i = Some (Ok df) →
  i ≤ j → j < length fss →
  reruns to_datetime cache fss !! j = Some (Ok df).
Proof.
  revert cache i j. induction fss as [|fs fss IH]; intros cache i j Hi Hij Hj;
    [done|].
  destruct cache as [df0|].
  { rewrite reruns_cached in *. apply lookup_replicate in Hi as [-> _].
    by apply lookup_replicate. }
  simpl in *. destruct (load_data to_datetime fs) as [df0|e] eqn:E; simpl in *.
  - rewrite reruns_cached in *.
    assert (df0 = df) as ->.
    { destruct i as [|i]; simpl in Hi; [by injection Hi|].
      by apply lookup_replicate in Hi as [[= ->] _]. }
    destruct j as [|j]; simpl; [done|]. apply lookup_replicate. split; [done|lia].
  - destruct i as [|i]; simpl in Hi; [done|].
    destruct j as [|j]; [lia|]. simpl. eapply IH; [done|lia|lia].
Qed.

Lemma reruns_retry to_datetime fss i fs :
  fss !! i = Some fs →
  (∀ j, j < i → ∃ e, reruns to_datetime None fss !! j = Some (Raise e)) →
  reruns to_datetime None fss !! i = Some (load_data to_datetime fs).
Proof.
  revert i. induction fss as [|fs0 fss IH]; intros i Hi Hfail; [done|].
  destruct i as [|i]; simpl in *.
  - injection Hi as ->. by destruct (load_data to_datetime fs).
  - destruct (Hfail 0) as [e He]; [lia|]. simpl in He.
    destruct (load_data to_datetime fs0) as [df0|e0] eqn:E; simpl in *; [done|].
    apply IH; [done|]. intros j Hj. apply (Hfail (S j)). lia.
Qed.

(** X2. Across the reruns of the script the cached [load_data] keeps to
    the first table it returned: once a rerun got a table, every later
    rerun gets the same one, whatever has become of the file; and as long
    as every call so far has raised, the next call loads the file afresh. *)
Theorem cache_keeps_first_table
    (to_datetime : list value → result (list value))
    (fss : list (gmap string file)) :
  (∀ i j df,
     reruns to_datetime None fss !! i = Some (Ok df) →
     i ≤ j → j < length fss →
     reruns to_datetime None fss !! j = Some (Ok df)) ∧
  (∀ i fs,
     fss !! i = Some fs →
     (∀ j, j < i → ∃ e, reruns to_datetime None fss !! j = Some (Raise e)) →
     reruns to_datetime None fss !! i = Some (load_data to_datetime fs)).
Proof. split; [apply reruns_sticky | apply reruns_retry]. Qed.


(** X2 on three reruns: the file is missing, then present, then missing
    again. *)
Lemma cache_keeps_first_table_witness :
  let fss : list (gmap string file) :=
    [∅; {[ data_path := Csv (Some site_x) ]}; ∅] in
  let df := iloc_step 10 (setitem site_x "DateTime" [VTime 0; VTime 1]) in
  (reruns epoch_to_datetime None fss !! 1 = Some (Ok df) ∧ 1 ≤ 2 ∧ 2 < length fss) ∧
  reruns epoch_to_datetime None fss !! 2 = Some (Ok df) ∧
  reruns epoch_to_datetime None fss !! 0 = Some (Raise FileNotFoundError).
Proof.
  intros fss df.
  assert (reruns epoch_to_datetime None fss !! 1 = Some (Ok df)) as H1
    by (vm_compute; reflexivity).
  assert (1 ≤ 2) as H2 by lia.
  assert (2 < length fss) as H3 by (simpl; lia).
  split; [done|]. split.
  - exact (proj1 (cache_keeps_first_table epoch_to_datetime fss) 1 2 df H1 H2 H3).
  - assert (fss !! 0 = Some ∅) as H4 by reflexivity.
    assert (∀ j, j < 0 → ∃ e, reruns epoch_to_datetime None fss !! j = Some (Raise e))
      as H5 by (intros j Hj; lia).
    exact (proj2 (cache_keeps_first_table epoch_to_datetime fss) 0 ∅ H4 H5).
Defined.

(** ** Number formatting, in general *)










(** ** Key figures: what they are computed from *)

Lemma numeric_cells_cases (l : list value) :
  (∃ qs, numeric_cells l = Ok qs ∧ filter (λ v, v ≠ VNaN) l = map VNum qs) ∨
  (numeric_cells l = Raise TypeError ∧ ∃ v, v ∈ l ∧ non_numeric v).
Proof.
  induction l as [|v l IH]; [left; by exists []|].
  destruct v as [s|q|t|].
  - right. split; [done|]. exists (VStr s). split; [by left|done].
  - destruct IH as [(qs & E & F)|(E & v & Hv & Hn)].
    + left. exists (q :: qs). cbn [numeric_cells]. rewrite E. split; [done|].
      rewrite filter_cons_True by done. cbn [map]. by rewrite F.
    + right. cbn [numeric_cells]. rewrite E. split; [done|].
      exists v. split; [by right|done].
  - right. split; [done|]. exists (VTime t). split; [by left|done].
  - destruct IH as [(qs & E & F)|(E & v & Hv & Hn)].
    + left. exists qs. split; [done|].
      rewrite filter_cons_False by (intros H; by apply H). done.
    + right. split; [done|]. exists v. split; [by right|done].
Qed.


Lemma non_numeric_not_Ok (l : list value) (v : value) :
  v ∈ l → non_numeric v → numeric_cells l = Raise TypeError.
Proof.
  intros Hv Hn. destruct (numeric_cells_cases l) as [(qs & _ & F)|[E _]]; [|done].
  exfalso. assert (v ∈ filter (λ v, v ≠ VNaN) l) as Hin.
  { apply list_elem_of_filter. split; [|done]. by destruct v. }
  rewrite F in Hin. apply list_elem_of_In, in_map_iff in Hin as (q & <- & _).
  done.
Qed.

(** The mean and the maximum of the numbers [qs], as [series_mean] and
    [series_max] form them from the numeric cells. *)
Lemma mean_max_of_numeric (l : list value) (qs : list Q) :
  numeric_cells l = Ok qs →
  (qs = [] ∧ series_mean l = Ok NaN ∧ series_max l = Ok NaN) ∨
  (∃ a m, qs ≠ [] ∧ series_mean l = Ok (Fin a) ∧ series_max l = Ok (Fin m) ∧
          (a * inject_Z (Z.of_nat (length qs)) == Qsum qs)%Q ∧
          is_maximum m qs).
Proof.
  intros E. unfold series_mean, series_max. rewrite E, !bind_Ok_l.
  destruct qs as [|q qs]; [left; done|]. right.
  eexists _, _. split_and!; [done|reflexivity|reflexivity| |].
  - rewrite Qmult_comm. apply Qmult_div_r.
    change 0%Q with (inject_Z 0). rewrite inject_Z_injective. simpl. lia.
  - apply fold_left_Qmax_is_maximum.
Qed.

Lemma compute_kpis_nonempty (df : DataFrame) :
  df_empty df = false →
  compute_kpis df =
    (pod ← getitem df "Pod20";
     avg ← series_mean pod;
     pod' ← getitem df "Pod20";
     mx ← series_max pod';
     st ← getitem df "Status";
     mret {| avg_temp := avg; max_temp := mx;
             total_breaches :=
               len (boolean_index df (map (eq_scalar "WARNING") st)) |}).
Proof. intros H. unfold compute_kpis. by rewrite H. Qed.


(** The cases in which [compute_kpis] returns. *)
Lemma compute_kpis_Ok_inv (df : DataFrame) (k : KPIs) :
  compute_kpis df = Ok k →
  (df_empty df = true ∧
   k = {| avg_temp := Fin 0; max_temp := Fin 0; total_breaches := 0 |}) ∨
  (df_empty df = false ∧
   ∃ qs, numeric_cells (map (cell "Pod20") (rows df)) = Ok qs ∧
         series_mean (map (cell "Pod20") (rows df)) = Ok (avg_temp k) ∧
         series_max (map (cell "Pod20") (rows df)) = Ok (max_temp k) ∧
         total_breaches k
         = length (filter (λ r, cell "Status" r = VStr "WARNING") (rows df))).
Proof.
  destruct (df_empty df) eqn:Hem.
  - rewrite compute_kpis_empty by done. intros [= <-]. by left.
  - rewrite compute_kpis_nonempty by done. intros H. right. split; [done|].
    apply bind_Ok in H as (pod & Hpod & H). apply getitem_Ok in Hpod as [Hc ->].
    apply bind_Ok in H as (avg & Havg & H).
    rewrite (getitem_has_column _ _ Hc), bind_Ok_l in H.
    apply bind_Ok in H as (mx & Hmx & H).
    apply bind_Ok in H as (st & Hst & H). apply getitem_Ok in Hst as [Hs ->].
    injection H as <-. cbn [avg_temp max_temp total_breaches].
    destruct (numeric_cells_cases (map (cell "Pod20") (rows df)))
      as [(qs & E & _)|[E _]].
    + exists qs. split_and!; try done.
      unfold len, boolean_index. cbn [rows]. by rewrite select_rows_eq_scalar.
    + unfold series_mean in Havg. by rewrite E in Havg.
Qed.





(** X6. [compute_kpis] raises only on a non-empty table, and then: a
    [KeyError] for a missing [Pod20] column; else a [TypeError] when some
    [Pod20] cell is text or a timestamp; else a [KeyError] for a missing
    [Status] column.  On an empty table no column is looked at. *)
Theorem compute_kpis_raises (df : DataFrame) (e : exn) :
  compute_kpis df = Raise e ↔
  df_empty df = false ∧
  ((has_column df "Pod20" = false ∧ e = KeyError "Pod20") ∨
   (has_column df "Pod20" = true ∧
    (∃ v, v ∈ map (cell "Pod20") (rows df) ∧ non_numeric v) ∧
    e = TypeError) ∨
   (has_column df "Pod20" = true ∧
    (∀ v, v ∈ map (cell "Pod20") (rows df) → ¬ non_numeric v) ∧
    has_column df "Status" = false ∧ e = KeyError "Status")).
Proof.
  destruct (df_empty df) eqn:Hem.
  { rewrite compute_kpis_empty by done. split; [done|]. by intros [[=] _]. }
  rewrite compute_kpis_nonempty by done.
  destruct (has_column df "Pod20") eqn:Hp.
  - rewrite (getitem_has_column _ _ Hp), bind_Ok_l.
    destruct (numeric_cells_cases (map (cell "Pod20") (rows df)))
      as [(qs & E & F)|(E & v & Hv & Hn)].
    + assert (∀ v, v ∈ map (cell "Pod20") (rows df) → ¬ non_numeric v) as Hnum.
      { intros v Hv Hn. pose proof (non_numeric_not_Ok _ _ Hv Hn). congruence. }
      assert (∃ avg mx, series_mean (map (cell "Pod20") (rows df)) = Ok avg ∧
                        series_max (map (cell "Pod20") (rows df)) = Ok mx)
        as (avg & mx & Ea & Em).
      { destruct (mean_max_of_numeric _ _ E)
          as [(_ & Ea & Em)|(a & m & _ & Ea & Em & _)]; eauto. }
      rewrite Ea, bind_Ok_l, bind_Ok_l, Em, bind_Ok_l.
      destruct (has_column df "Status") eqn:Hs.
      * rewrite (getitem_has_column _ _ Hs), bind_Ok_l. split; [intros [=]|].
        intros [_ [[[=] _]|[(_ & (v & Hv & Hn) & _)|(_ & _ & [=] & _)]]].
        by destruct (Hnum v Hv).
      * rewrite (getitem_KeyError _ _ Hs). split.
        -- intros [= <-]. split; [done|]. right; right. done.
        -- intros [_ [[[=] _]|[(_ & (v & Hv & Hn) & _)|(_ & _ & _ & ->)]]];
             [|done].
           by destruct (Hnum v Hv).
    + unfold series_mean. rewrite E. simpl. split.
      * intros [= <-]. split; [done|]. right; left. eauto.
      * intros [_ [[[=] _]|[(_ & _ & ->)|(_ & Hnum & _)]]]; [done|].
        by destruct (Hnum v Hv).
  - rewrite (getitem_KeyError _ _ Hp). simpl. split.
    + intros [= <-]. split; [done|]. by left.
    + intros [_ [[_ ->]|[[[=] _]|[[=] _]]]]. done.
Qed.

(** ** The card *)

Lemma string_app_inv_head (a b c : string) : a ++ b = a ++ c → b = c.
Proof.
  induction a as [|x a IH]; [done|].
  change (String x (a ++ b) = String x (a ++ c) → b = c).
  intros [= H]. by apply IH.
Qed.

Lemma card_color_not_safe (s : string) : s ≠ "safe" → card_color s = "#EF553B".
Proof. intros H. unfold card_color. apply String.eqb_neq in H. by rewrite H. Qed.

Lemma card_arrow_not_safe (s : string) : s ≠ "safe" → card_arrow s = "▲".
Proof. intros H. unfold card_arrow. apply String.eqb_neq in H. by rewrite H. Qed.

(** X7. The card shows its status and nothing else of it: every status
    other than "safe" (whatever its spelling) is drawn exactly as "danger",
    in red with an up arrow, and for the same texts the "safe" card and the
    "danger" card are different HTML. *)
Theorem card_shows_status (label value delta_text status : string) :
  (status ≠ "safe" →
   custom_metric_card label value delta_text status
   = custom_metric_card label value delta_text "danger") ∧
  custom_metric_card label value delta_text "safe"
  ≠ custom_metric_card label value delta_text "danger".
Proof.
  split.
  - intros H. unfold custom_metric_card.
    rewrite (card_color_not_safe status H), (card_arrow_not_safe status H).
    reflexivity.
  - unfold custom_metric_card. intros H.
    repeat (apply string_app_inv_head in H).
    vm_compute in H. discriminate H.
Qed.

(** X7 on a misspelt status. *)
Lemma card_shows_status_witness :
  "Safe" ≠ "safe" ∧
  custom_metric_card "Breach Events" "0" "No Incidents" "Safe"
  = custom_metric_card "Breach Events" "0" "No Incidents" "danger".
Proof.
  assert ("Safe" ≠ "safe") as H by discriminate.
  split; [done|].
  exact (proj1 (card_shows_status "Breach Events" "0" "No Incidents" "Safe") H).
Defined.

(** ** The buttons *)

Lemma button_type_primary (loc : value) (sel : string) :
  button_type loc sel = "primary" ↔ loc = VStr sel.
Proof.
  unfold button_type. rewrite <- eq_scalar_true.
  destruct (eq_scalar sel loc); split; done.
Qed.

Lemma filter_eq_NoDup {A} `{!EqDecision A} (l : list A) (x : A) :
  NoDup l →
  filter (λ y, y = x) l = if decide (x ∈ l) then [x] else [].
Proof.
  induction 1 as [|y l Hy Hl IH]; [done|].
  rewrite filter_cons, IH. destruct (decide (y = x)) as [->|Hne].
  - rewrite decide_False by done. rewrite decide_True by (by left). done.
  - destruct (decide (x ∈ l)) as [Hin|Hout].
    + rewrite decide_True by (by right). done.
    + rewrite decide_False; [done|]. intros [E|?]%elem_of_cons; congruence.
Qed.

Lemma VStr_inj : Inj (=) (=) VStr.
Proof. by intros s t [= ->]. Qed.

Lemma elem_of_map_VStr (s : string) (l : list string) :
  VStr s ∈ map VStr l ↔ s ∈ l.
Proof.
  split.
  - intros H. apply list_elem_of_In, in_map_iff in H as (t & [= ->] & Ht).
    by apply list_elem_of_In.
  - intros H. apply list_elem_of_In, in_map_iff. exists s.
    split; [done|]. by apply list_elem_of_In.
Qed.

Lemma location_list_text (df : DataFrame) (locs : list string) :
  getitem df "Location_Name" = Ok (map VStr locs) →
  location_list df
  = Ok (VStr all_locations :: map VStr (distinct_first_seen locs)).
Proof.
  intros H. unfold location_list.
  by rewrite H, bind_Ok_l, series_unique_strings.
Qed.

(** X8. When no stage is itself named "All Locations", the labels of the
    buttons are all different, and exactly one button is drawn as active
    ("primary"): the one whose label is the selection.  A selection that is
    not among the labels leaves no button active. *)
Theorem one_active_button (df : DataFrame) (locs : list string) (sel : string) :
  getitem df "Location_Name" = Ok (map VStr locs) →
  "All Locations" ∉ locs →
  ∃ labels,
    location_list df = Ok labels ∧
    NoDup labels ∧
    (VStr sel ∈ labels →
     filter (λ loc, button_type loc sel = "primary") labels = [VStr sel]) ∧
    (VStr sel ∉ labels →
     filter (λ loc, button_type loc sel = "primary") labels = []).
Proof.
  intros Hcol Hall. eexists. split; [by apply location_list_text|].
  set (labels := VStr all_locations :: map VStr (distinct_first_seen locs)).
  assert (NoDup labels) as Hnd.
  { apply NoDup_cons. split.
    - rewrite elem_of_map_VStr, elem_of_distinct_first_seen. exact Hall.
    - change (NoDup (VStr <$> distinct_first_seen locs)).
      pose proof VStr_inj.
      apply (NoDup_fmap_2 _), NoDup_distinct_first_seen. }
  assert (filter (λ loc, button_type loc sel = "primary") labels
          = filter (λ loc, loc = VStr sel) labels) as ->.
  { apply list_filter_iff. intros loc. apply button_type_primary. }
  rewrite (filter_eq_NoDup labels (VStr sel) Hnd).
  split; [done|]. split; intros H; [by rewrite decide_True|by rewrite decide_False].
Qed.

(** X8 on the round trip, with "Factory" selected. *)
Lemma one_active_button_witness :
  (getitem round_trip "Location_Name" = Ok (map VStr ["Port"; "Factory"; "Port"]) ∧
   "All Locations" ∉ ["Port"; "Factory"; "Port"]) ∧
  ∃ labels,
    location_list round_trip = Ok labels ∧
    NoDup labels ∧
    (VStr "Factory" ∈ labels →
     filter (λ loc, button_type loc "Factory" = "primary") labels = [VStr "Factory"]) ∧
    (VStr "Factory" ∉ labels →
     filter (λ loc, button_type loc "Factory" = "primary") labels = []).
Proof.
  assert (getitem round_trip "Location_Name"
          = Ok (map VStr ["Port"; "Factory"; "Port"])) as H1 by reflexivity.
  assert ("All Locations" ∉ ["Port"; "Factory"; "Port"]) as H2 by not_listed.
  split; [done|]. exact (one_active_button round_trip _ "Factory" H1 H2).
Defined.

Lemma unique_from_elem_of (seen l : list value) (v : value) :
  v ∈ unique_from seen l → v ∈ l.
Proof.
  revert seen. induction l as [|x l IH]; intros seen; simpl; [done|].
  destruct (existsb _ _).
  - intros H. right. by eapply IH.
  - intros [->|H]%elem_of_cons; [by left|]. right. by eapply IH.
Qed.

Lemma has_column_columns_nonempty (df : DataFrame) (c : string) :
  has_column df c = true → columns df ≠ [].
Proof. unfold has_column. by destruct (columns df). Qed.

(** X9. Every button other than "All Locations" leads to data: a label of
    the location list that is the text [L] selects a filtered table with
    at least one row, all of them at [L], so the render does not take the
    "no data" branches. *)
Theorem listed_location_has_rows
    (df : DataFrame) (labels : list value) (L : string) :
  location_list df = Ok labels →
  VStr L ∈ labels →
  L ≠ "All Locations" →
  ∃ df_filtered,
    filter_data df L = Ok df_filtered ∧
    df_empty df_filtered = false ∧
    0 < len df_filtered ∧
    (∀ r, r ∈ rows df_filtered → cell "Location_Name" r = VStr L).
Proof.
  intros Hlist Hin HL. unfold location_list in Hlist.
  apply bind_Ok in Hlist as (col & Hcol & [= <-]).
  apply getitem_Ok in Hcol as [Hc ->].
  apply elem_of_cons in Hin as [[= ->]|Hin]; [done|].
  apply unique_from_elem_of in Hin.
  apply list_elem_of_In, in_map_iff in Hin as (r & Hr & Hin%list_elem_of_In).
  assert (r ∈ filter (λ r, cell "Location_Name" r = VStr L) (rows df)) as Hrf
    by (by apply list_elem_of_filter).
  eexists. split; [by apply filter_data_location|].
  unfold df_empty, len. cbn [rows columns].
  pose proof (has_column_columns_nonempty _ _ Hc) as Hcols.
  destruct (filter _ (rows df)) as [|r0 rs] eqn:E; [by apply elem_of_nil in Hrf|].
  split_and!.
  - by destruct (columns df).
  - simpl. lia.
  - intros r' Hr'. rewrite <- E in Hr'. by apply list_elem_of_filter in Hr' as [? _].
Qed.

(** X9 on the round trip, for the button "Port". *)
Lemma listed_location_has_rows_witness :
  (location_list round_trip
   = Ok [VStr "All Locations"; VStr "Port"; VStr "Factory"] ∧
   VStr "Port" ∈ [VStr "All Locations"; VStr "Port"; VStr "Factory"] ∧
   "Port" ≠ "All Locations") ∧
  ∃ df_filtered,
    filter_data round_trip "Port" = Ok df_filtered ∧
    df_empty df_filtered = false ∧
    0 < len df_filtered ∧
    (∀ r, r ∈ rows df_filtered → cell "Location_Name" r = VStr "Port").
Proof.
  assert (location_list round_trip
          = Ok [VStr "All Locations"; VStr "Port"; VStr "Factory"]) as H1
    by reflexivity.
  assert (VStr "Port" ∈ [VStr "All Locations"; VStr "Port"; VStr "Factory"]) as H2
    by (right; by left).
  assert ("Port" ≠ "All Locations") as H3 by discriminate.
  split; [done|]. exact (listed_location_has_rows round_trip _ "Port" H1 H2 H3).
Defined.

(** ** The views of the stages, together *)

Lemma sum_list_with_ext {A} (f g : A → nat) (l : list A) :
  (∀ x, x ∈ l → f x = g x) → sum_list_with f l = sum_list_with g l.
Proof.
  induction l as [|x l IH]; intros H; simpl; [done|].
  rewrite (H x) by (by left). rewrite IH; [done|].
  intros y Hy. apply H. by right.
Qed.

Lemma sum_list_with_split {A} (P : A → Prop) `{!∀ x, Decision (P x)}
    (f : A → nat) (l : list A) :
  sum_list_with f l
  = sum_list_with f (filter P l) + sum_list_with f (filter (λ x, ¬ P x) l).
Proof.
  induction l as [|x l IH]; [done|].
  rewrite !filter_cons. simpl. rewrite IH.
  destruct (decide (P x)).
  - rewrite decide_False by tauto. simpl. lia.
  - rewrite decide_True by done. simpl. lia.
Qed.

(** Counting every distinct text of [l] as often as it occurs counts [l]. *)
Lemma occurrences_add_up (l : list string) :
  sum_list_with (λ s, length (filter (λ x, x = s) l)) (distinct_first_seen l)
  = length l.
Proof.
  induction l as [|x l IH]; [done|].
  cbn [distinct_first_seen sum_list_with length].
  rewrite filter_cons_True by done. cbn [length].
  rewrite (sum_list_with_ext _ (λ s, length (filter (λ y, y = s) l))).
  2:{ intros s [Hs _]%list_elem_of_filter. by rewrite filter_cons_False. }
  rewrite <- IH.
  rewrite (sum_list_with_split (λ s, s = x) _ (distinct_first_seen l)).
  rewrite (filter_eq_NoDup _ x (NoDup_distinct_first_seen l)).
  destruct (decide (x ∈ distinct_first_seen l)) as [Hin|Hout].
  - simpl. lia.
  - rewrite elem_of_distinct_first_seen in Hout.
    rewrite (filter_none (λ y, y = x) l); [simpl; lia|].
    intros y Hy ->. done.
Qed.

Lemma length_filter_column (f : gmap string value → value)
    (rs : list (gmap string value)) (locs : list string) (s : string) :
  map f rs = map VStr locs →
  length (filter (λ r, f r = VStr s) rs) = length (filter (λ x, x = s) locs).
Proof.
  revert locs. induction rs as [|r rs IH]; intros [|x locs] E; try done.
  injection E as Er E. rewrite !filter_cons. rewrite Er.
  destruct (decide (x = s)) as [->|Hne].
  - rewrite decide_True by done. simpl. by rewrite (IH locs).
  - rewrite decide_False by (by intros [= ?]). by apply IH.
Qed.

(** X10. The views of the stages add up to the whole: when no stage is
    itself named "All Locations", filtering by each listed stage in turn
    succeeds, and the sizes of these filtered tables sum to the size of the
    table that "All Locations" shows. *)
Theorem stage_views_add_up (df : DataFrame) (locs : list string) :
  getitem df "Location_Name" = Ok (map VStr locs) →
  "All Locations" ∉ locs →
  ∃ names views,
    location_list df = Ok (VStr "All Locations" :: map VStr names) ∧
    Forall2 (λ s d, filter_data df s = Ok d) names views ∧
    filter_data df "All Locations" = Ok df ∧
    sum_list_with len views = len df.
Proof.
  intros Hcol Hall. pose proof Hcol as Hcol'.
  apply getitem_Ok in Hcol' as [Hc Hmap].
  set (view := λ s : string,
         {| columns := columns df;
            rows := filter (λ r, cell "Location_Name" r = VStr s) (rows df) |}).
  exists (distinct_first_seen locs), (map view (distinct_first_seen locs)).
  split_and!.
  - by apply location_list_text.
  - assert (∀ s, s ∈ distinct_first_seen locs → s ≠ all_locations) as Hne.
    { intros s Hs ->. apply Hall. by apply (proj1 (elem_of_distinct_first_seen _ _)). }
    induction (distinct_first_seen locs) as [|s names IH]; [constructor|].
    cbn [map]. constructor.
    + apply filter_data_location; [|done]. apply Hne. by left.
    + apply IH. intros t Ht. apply Hne. by right.
  - apply filter_data_all.
  - assert (sum_list_with len (map view (distinct_first_seen locs))
            = sum_list_with (λ s, len (view s)) (distinct_first_seen locs)) as ->.
    { induction (distinct_first_seen locs) as [|s names IH]; [done|].
      simpl. by rewrite IH. }
    rewrite (sum_list_with_ext _ (λ s, length (filter (λ x, x = s) locs))).
    + rewrite occurrences_add_up. unfold len.
      apply (f_equal length) in Hmap. by rewrite !length_map in Hmap.
    + intros s _. unfold len, view. cbn [rows].
      by apply length_filter_column.
Qed.

(** X10 on the round trip: two rows at "Port" and one at "Factory". *)
Lemma stage_views_add_up_witness :
  (getitem round_trip "Location_Name" = Ok (map VStr ["Port"; "Factory"; "Port"]) ∧
   "All Locations" ∉ ["Port"; "Factory"; "Port"]) ∧
  ∃ names views,
    location_list round_trip = Ok (VStr "All Locations" :: map VStr names) ∧
    Forall2 (λ s d, filter_data round_trip s = Ok d) names views ∧
    filter_data round_trip "All Locations" = Ok round_trip ∧
    sum_list_with len views = len round_trip.
Proof.
  assert (getitem round_trip "Location_Name"
          = Ok (map VStr ["Port"; "Factory"; "Port"])) as H1 by reflexivity.
  assert ("All Locations" ∉ ["Port"; "Factory"; "Port"]) as H2 by not_listed.
  split; [done|]. exact (stage_views_add_up round_trip _ H1 H2).
Defined.

(** ** Filtering twice *)

Lemma filter_data_Ok_inv (df d : DataFrame) (L : string) :
  filter_data df L = Ok d →
  (L = all_locations ∧ d = df) ∨
  (L ≠ all_locations ∧ has_column df "Location_Name" = true ∧
   d = {| columns := columns df;
          rows := filter (λ r, cell "Location_Name" r = VStr L) (rows df) |}).
Proof.
  intros H. destruct (decide (L = all_locations)) as [->|HL].
  - left. rewrite filter_data_all in H. by injection H as <-.
  - right. destruct (has_column df "Location_Name") eqn:Hc.
    + rewrite filter_data_location in H by done. by injection H as <-.
    + by rewrite filter_data_KeyError in H.
Qed.

(** X11. Filtering is idempotent, and the views of two different stages
    are disjoint: filtering a filtered table by the same selection returns
    it unchanged, and filtering the view of stage [L] by another stage
    returns no row. *)
Theorem filter_data_twice (df d : DataFrame) (L : string) :
  filter_data df L = Ok d →
  filter_data d L = Ok d ∧
  (∀ L', L ≠ "All Locations" → L' ≠ "All Locations" → L' ≠ L →
     ∃ d', filter_data d L' = Ok d' ∧ rows d' = [] ∧ columns d' = columns df).
Proof.
  intros H. apply filter_data_Ok_inv in H as [[-> ->]|(HL & Hc & ->)].
  - split; [apply filter_data_all|]. by intros L' [].
  - split.
    + rewrite filter_data_location by done. cbn [rows columns]. f_equal. f_equal.
      rewrite list_filter_filter. apply list_filter_iff. tauto.
    + intros L' _ HL' Hne. eexists. split; [by apply filter_data_location|].
      cbn [rows columns]. split; [|done].
      apply filter_none. intros r [E _]%list_elem_of_filter E'.
      rewrite E in E'. by injection E' as ->.
Qed.

(** X11 on the round trip: the view of "Port" holds no row of "Factory". *)
Lemma filter_data_twice_witness :
  let port := {| columns := required_columns;
                 rows := [record 0 "Port" (-(70 # 1)) "OK";
                          record 2 "Port" (-(70 # 1)) "OK"] |} in
  filter_data round_trip "Port" = Ok port ∧
  filter_data port "Port" = Ok port ∧
  (∀ L', "Port" ≠ "All Locations" → L' ≠ "All Locations" → L' ≠ "Port" →
     ∃ d', filter_data port L' = Ok d' ∧ rows d' = [] ∧
           columns d' = columns round_trip).
Proof.
  intros port.
  assert (filter_data round_trip "Port" = Ok port) as H by (vm_compute; reflexivity).
  split; [done|]. exact (filter_data_twice round_trip port "Port" H).
Defined.

(** ** The table *)

Lemma highlight_status_red (v : value) :
  highlight_status v = "color: #EF553B; font-weight: bold" ↔ v = VStr "WARNING".
Proof.
  unfold highlight_status. rewrite <- eq_scalar_true.
  destruct (eq_scalar "WARNING" v); split; done.
Qed.

Lemma highlight_status_green (v : value) :
  v ≠ VStr "WARNING" → highlight_status v = "color: #00CC96; font-weight: bold".
Proof.
  intros H. apply eq_scalar_false in H. unfold highlight_status. by rewrite H.
Qed.

Lemma table_row_lookup (r : gmap string value) :
  table_row r !! "Timestamp" = Some (cell "DateTime" r) ∧
  table_row r !! "Location" = Some (cell "Location_Name" r) ∧
  table_row r !! "Temperature (°C)" = Some (cell "Pod20" r) ∧
  table_row r !! "Status" = Some (cell "Status" r) ∧
  table_row r !! "Latitude" = None ∧
  table_row r !! "Longitude" = None.
Proof.
  unfold table_row, table_columns. cbn [map fst snd list_to_map foldr].
  split_and!.
  - by rewrite lookup_insert_eq.
  - rewrite lookup_insert_ne by done. by rewrite lookup_insert_eq.
  - do 2 rewrite lookup_insert_ne by done. by rewrite lookup_insert_eq.
  - do 3 rewrite lookup_insert_ne by done. by rewrite lookup_insert_eq.
  - do 4 rewrite lookup_insert_ne by done. apply lookup_empty.
  - do 4 rewrite lookup_insert_ne by done. apply lookup_empty.
Qed.

Lemma table_section_Grid (df : DataFrame) :
  df_empty df = false →
  has_column df "DateTime" = true →
  has_column df "Location_Name" = true →
  has_column df "Pod20" = true →
  has_column df "Status" = true →
  table_section df
  = Ok (Grid {| columns := ["Timestamp"; "Location"; "Temperature (°C)"; "Status"];
                rows := map table_row (rows df) |}
             (map (λ r, highlight_status (cell "Status" r))
                  (map table_row (rows df)))).
Proof.
  intros Hne H1 H2 H3 H4. unfold table_section. rewrite Hne.
  cbn [negb map fst snd table_columns find]. by rewrite H1, H2, H3, H4.
Qed.

Lemma red_rows_count (rs : list (gmap string value)) :
  length (filter (λ s, s = "color: #EF553B; font-weight: bold")
            (map (λ r, highlight_status (cell "Status" r)) (map table_row rs)))
  = length (filter (λ r, cell "Status" r = VStr "WARNING") rs).
Proof.
  induction rs as [|r rs IH]; [done|].
  cbn [map]. rewrite !filter_cons.
  assert (cell "Status" (table_row r) = cell "Status" r) as ->.
  { unfold cell at 1. by rewrite (proj1 (proj2 (proj2 (proj2 (table_row_lookup r))))). }
  destruct (decide (cell "Status" r = VStr "WARNING")) as [E|E].
  - rewrite decide_True by (by apply highlight_status_red). simpl. by rewrite IH.
  - rewrite decide_False by (by rewrite highlight_status_red). done.
Qed.

(** X12. The detail table of a non-empty filtered table with the four
    columns it reads: it has the labels Timestamp, Location, Temperature
    and Status, one row and one style per row of the filtered table in the
    same order, each row holding the four cells of its source row and
    neither coordinate; a style is red exactly for the status "WARNING"
    (green for anything else), and the number of red rows is the breach
    count of the key figures. *)
Theorem table_section_rows (df : DataFrame) :
  df_empty df = false →
  has_column df "DateTime" = true →
  has_column df "Location_Name" = true →
  has_column df "Pod20" = true →
  has_column df "Status" = true →
  ∃ table styles,
    table_section df = Ok (Grid table styles) ∧
    columns table = ["Timestamp"; "Location"; "Temperature (°C)"; "Status"] ∧
    len table = len df ∧
    length styles = len df ∧
    (∀ i r, rows df !! i = Some r →
       ∃ r', rows table !! i = Some r' ∧
             r' !! "Timestamp" = Some (cell "DateTime" r) ∧
             r' !! "Location" = Some (cell "Location_Name" r) ∧
             r' !! "Temperature (°C)" = Some (cell "Pod20" r) ∧
             r' !! "Status" = Some (cell "Status" r) ∧
             r' !! "Latitude" = None ∧
             r' !! "Longitude" = None ∧
             styles !! i = Some (highlight_status (cell "Status" r))) ∧
    (∀ v, highlight_status v = "color: #EF553B; font-weight: bold"
          ↔ v = VStr "WARNING") ∧
    (∀ v, v ≠ VStr "WARNING" →
          highlight_status v = "color: #00CC96; font-weight: bold") ∧
    (∀ k, compute_kpis df = Ok k →
          length (filter (λ s, s = "color: #EF553B; font-weight: bold") styles)
          = total_breaches k).
Proof.
  intros Hne H1 H2 H3 H4. eexists _, _.
  split; [by apply table_section_Grid|]. cbn [columns rows]. split_and!.
  - done.
  - unfold len. cbn [rows]. by rewrite length_map.
  - unfold len. by rewrite !length_map.
  - intros i r Hr. exists (table_row r).
    destruct (table_row_lookup r) as (T1 & T2 & T3 & T4 & T5 & T6).
    split_and!; try done.
    + change (map table_row (rows df)) with (table_row <$> rows df).
      by rewrite list_lookup_fmap, Hr.
    + change (map (λ r0, highlight_status (cell "Status" r0)) (map table_row (rows df)))
        with ((λ r0, highlight_status (cell "Status" r0)) <$> (table_row <$> rows df)).
      rewrite !list_lookup_fmap, Hr. simpl. unfold cell at 1. by rewrite T4.
  - apply highlight_status_red.
  - apply highlight_status_green.
  - intros k Hk. rewrite red_rows_count.
    apply compute_kpis_Ok_inv in Hk as [[E _]|(_ & _ & _ & _ & _ & ->)]; [congruence|].
    done.
Qed.

(** X12 on Scenario B's table. *)
Lemma table_section_rows_witness :
  (df_empty site_x = false ∧
   has_column site_x "DateTime" = true ∧
   has_column site_x "Location_Name" = true ∧
   has_column site_x "Pod20" = true ∧
   has_column site_x "Status" = true) ∧
  ∃ table styles,
    table_section site_x = Ok (Grid table styles) ∧
    columns table = ["Timestamp"; "Location"; "Temperature (°C)"; "Status"] ∧
    len table = len site_x ∧
    length styles = len site_x ∧
    (∀ i r, rows site_x !! i = Some r →
       ∃ r', rows table !! i = Some r' ∧
             r' !! "Timestamp" = Some (cell "DateTime" r) ∧
             r' !! "Location" = Some (cell "Location_Name" r) ∧
             r' !! "Temperature (°C)" = Some (cell "Pod20" r) ∧
             r' !! "Status" = Some (cell "Status" r) ∧
             r' !! "Latitude" = None ∧
             r' !! "Longitude" = None ∧
             styles !! i = Some (highlight_status (cell "Status" r))) ∧
    (∀ v, highlight_status v = "color: #EF553B; font-weight: bold"
          ↔ v = VStr "WARNING") ∧
    (∀ v, v ≠ VStr "WARNING" →
          highlight_status v = "color: #00CC96; font-weight: bold") ∧
    (∀ k, compute_kpis site_x = Ok k →
          length (filter (λ s, s = "color: #EF553B; font-weight: bold") styles)
          = total_breaches k).
Proof.
  assert (df_empty site_x = false) as H0 by reflexivity.
  assert (has_column site_x "DateTime" = true) as H1 by reflexivity.
  assert (has_column site_x "Location_Name" = true) as H2 by reflexivity.
  assert (has_column site_x "Pod20" = true) as H3 by reflexivity.
  assert (has_column site_x "Status" = true) as H4 by reflexivity.
  split; [done|]. exact (table_section_rows site_x H0 H1 H2 H3 H4).
Defined.

(** ** When a render goes through *)


Lemma compute_kpis_Ok_columns (d : DataFrame) (k : KPIs) :
  df_empty d = false →
  compute_kpis d = Ok k →
  has_column d "Pod20" = true ∧ has_column d "Status" = true ∧
  ∀ v, v ∈ map (cell "Pod20") (rows d) → ¬ non_numeric v.
Proof.
  intros Hne H. pose proof H as H'.
  rewrite compute_kpis_nonempty in H by done.
  apply bind_Ok in H as (pod & Hpod & H). apply getitem_Ok in Hpod as [Hc ->].
  apply bind_Ok in H as (avg & Havg & H).
  apply bind_Ok in H as (pod' & _ & H).
  apply bind_Ok in H as (mx & Hmx & H).
  apply bind_Ok in H as (st & Hst & H). apply getitem_Ok in Hst as [Hs ->].
  split_and!; [done..|].
  intros v Hv Hn. pose proof (non_numeric_not_Ok _ _ Hv Hn) as E.
  unfold series_mean in Havg. by rewrite E in Havg.
Qed.

Lemma compute_kpis_numeric_Ok (d : DataFrame) :
  df_empty d = false →
  has_column d "Pod20" = true →
  has_column d "Status" = true →
  (∀ v, v ∈ map (cell "Pod20") (rows d) → ¬ non_numeric v) →
  is_Ok (compute_kpis d).
Proof.
  intros Hne Hp Hs Hnum. rewrite compute_kpis_nonempty by done.
  rewrite (getitem_has_column _ _ Hp), bind_Ok_l.
  destruct (numeric_cells_cases (map (cell "Pod20") (rows d)))
    as [(qs & E & _)|(_ & v & Hv & Hn)]; [|by destruct (Hnum v Hv)].
  assert (∃ avg mx, series_mean (map (cell "Pod20") (rows d)) = Ok avg ∧
                    series_max (map (cell "Pod20") (rows d)) = Ok mx)
    as (avg & mx & Ea & Em).
  { destruct (mean_max_of_numeric _ _ E)
      as [(_ & Ea & Em)|(a & m & _ & Ea & Em & _)]; eauto. }
  rewrite Ea, bind_Ok_l, bind_Ok_l, Em, bind_Ok_l.
  rewrite (getitem_has_column _ _ Hs), bind_Ok_l. by eexists.
Qed.



(** ** A file with a header and no rows *)

Lemma render_no_rows (cols : list string) (sel : string) :
  sel = all_locations ∨ existsb (String.eqb "Location_Name") cols = true →
  render {| columns := cols; rows := [] |} sel
  = Ok {| kpi_html :=
            map card_html
              [kpi1 {| avg_temp := Fin 0; max_temp := Fin 0; total_breaches := 0 |};
               kpi2 {| avg_temp := Fin 0; max_temp := Fin 0; total_breaches := 0 |};
               kpi3 {| avg_temp := Fin 0; max_temp := Fin 0; total_breaches := 0 |}];
          map_view := Warning "No location data available.";
          line_view := Warning "No data.";
          bar_view := Warning "No data.";
          table_view := Warning "No data to display." |}.
Proof.
  intros H. unfold render.
  destruct (decide (sel = all_locations)) as [->|HL].
  - by rewrite filter_data_all.
  - destruct H as [?|Hc]; [done|].
    by rewrite filter_data_location.
Qed.

(** X14. A file that has its header and no rows loads as an empty table:
    the only button is "All Locations", and whatever is selected the page
    shows the four placeholders and the key figures (0, 0, 0); the columns
    other than [DateTime] and [Location_Name] are never asked for. *)
Theorem header_only_file
    (to_datetime : list value → result (list value))
    (fs : gmap string file) (src : DataFrame) (parsed : list value) :
  fs !! data_path = Some (Csv (Some src)) →
  rows src = [] →
  has_column src "DateTime" = true →
  has_column src "Location_Name" = true →
  to_datetime [] = Ok parsed →
  ∃ df,
    load_data to_datetime fs = Ok df ∧
    rows df = [] ∧
    columns df = columns src ∧
    location_list df = Ok [VStr "All Locations"] ∧
    ∀ sel, ∃ page,
      render df sel = Ok page ∧
      kpi_html page
      = map card_html
          [kpi1 {| avg_temp := Fin 0; max_temp := Fin 0; total_breaches := 0 |};
           kpi2 {| avg_temp := Fin 0; max_temp := Fin 0; total_breaches := 0 |};
           kpi3 {| avg_temp := Fin 0; max_temp := Fin 0; total_breaches := 0 |}] ∧
      map_view page = Warning "No location data available." ∧
      line_view page = Warning "No data." ∧
      bar_view page = Warning "No data." ∧
      table_view page = Warning "No data to display.".
Proof.
  intros Hfs Hrows Hdt Hloc Hparse.
  assert (iloc_step 10 (setitem src "DateTime" parsed)
          = {| columns := columns src; rows := [] |}) as E.
  { unfold iloc_step, setitem. cbn [rows columns]. by rewrite Hdt, Hrows. }
  exists {| columns := columns src; rows := [] |}. split_and!.
  - apply load_data_Ok. exists src, parsed. rewrite Hrows. by split_and!.
  - done.
  - done.
  - unfold location_list, getitem, has_column. cbn [columns rows].
    fold (has_column src "Location_Name"). by rewrite Hloc.
  - intros sel. eexists. split; [apply render_no_rows; by right|]. by split_and!.
Qed.

(** X14 on a header without the [Pod20] column. *)
Lemma header_only_file_witness :
  let src := {| columns := ["DateTime"; "Location_Name"; "Status"]; rows := [] |} in
  let fs : gmap string file := {[ data_path := Csv (Some src) ]} in
  (fs !! data_path = Some (Csv (Some src)) ∧
   rows src = [] ∧
   has_column src "DateTime" = true ∧
   has_column src "Location_Name" = true ∧
   epoch_to_datetime [] = Ok []) ∧
  ∃ df,
    load_data epoch_to_datetime fs = Ok df ∧
    rows df = [] ∧
    columns df = columns src ∧
    location_list df = Ok [VStr "All Locations"] ∧
    ∀ sel, ∃ page,
      render df sel = Ok page ∧
      kpi_html page
      = map card_html
          [kpi1 {| avg_temp := Fin 0; max_temp := Fin 0; total_breaches := 0 |};
           kpi2 {| avg_temp := Fin 0; max_temp := Fin 0; total_breaches := 0 |};
           kpi3 {| avg_temp := Fin 0; max_temp := Fin 0; total_breaches := 0 |}] ∧
      map_view page = Warning "No location data available." ∧
      line_view page = Warning "No data." ∧
      bar_view page = Warning "No data." ∧
      table_view page = Warning "No data to display.".
Proof.
  intros src fs.
  assert (fs !! data_path = Some (Csv (Some src))) as H1 by apply lookup_singleton_eq.
  assert (rows src = []) as H2 by reflexivity.
  assert (has_column src "DateTime" = true) as H3 by reflexivity.
  assert (has_column src "Location_Name" = true) as H4 by reflexivity.
  assert (epoch_to_datetime [] = Ok []) as H5 by reflexivity.
  split; [done|].
  exact (header_only_file epoch_to_datetime fs src [] H1 H2 H3 H4 H5).
Defined.

(** ** Breaches, stage by stage *)

Lemma sum_list_with_add {A} (f g : A → nat) (l : list A) :
  sum_list_with (λ x, f x + g x) l = sum_list_with f l + sum_list_with g l.
Proof. induction l as [|x l IH]; simpl; [done|]. rewrite IH. lia. Qed.

Lemma sum_indicator_NoDup {A} `{!EqDecision A} (l : list A) (x : A) :
  NoDup l → x ∈ l →
  sum_list_with (λ s, if decide (x = s) then 1 else 0) l = 1.
Proof.
  induction 1 as [|y l Hy Hl IH]; [by intros ?%elem_of_nil|].
  intros Hin. simpl. destruct (decide (x = y)) as [->|Hne].
  - rewrite (sum_list_with_ext _ (λ _, 0)).
    + clear. induction l; simpl; lia.
    + intros s Hs. rewrite decide_False; [done|]. by intros <-.
  - apply elem_of_cons in Hin as [?|Hin]; [done|]. by rewrite IH.
Qed.

Lemma occurrences_add_up_within (names l : list string) :
  NoDup names → (∀ x, x ∈ l → x ∈ names) →
  sum_list_with (λ s, length (filter (λ x, x = s) l)) names = length l.
Proof.
  intros Hnd. induction l as [|x l IH]; intros Hsub.
  - simpl. clear. induction names; simpl; lia.
  - rewrite (sum_list_with_ext _
      (λ s, (if decide (x = s) then 1 else 0) + length (filter (λ y, y = s) l))).
    + rewrite sum_list_with_add, sum_indicator_NoDup by (done || apply Hsub; by left).
      rewrite IH; [done|]. intros y Hy. apply Hsub. by right.
    + intros s _. rewrite filter_cons. by repeat case_decide.
Qed.

Lemma filter_column_text (P : gmap string value → Prop) `{!∀ r, Decision (P r)}
    (f : gmap string value → value) (rs : list (gmap string value))
    (locs : list string) :
  map f rs = map VStr locs →
  ∃ locs', map f (filter P rs) = map VStr locs' ∧ ∀ x, x ∈ locs' → x ∈ locs.
Proof.
  revert locs. induction rs as [|r rs IH]; intros [|x locs] E; try done.
  { by exists []. }
  injection E as Er E. destruct (IH locs E) as (locs' & E' & Hsub).
  rewrite filter_cons. case_decide.
  - exists (x :: locs'). cbn [map]. rewrite Er, E'. split; [done|].
    intros y [->|Hy]%elem_of_cons; [by left|]. right. by apply Hsub.
  - exists locs'. split; [done|]. intros y Hy. right. by apply Hsub.
Qed.

(** The breaches among the rows at stage [s], summed over the stages. *)
Lemma stage_breaches_sum (rs : list (gmap string value)) (locs : list string) :
  map (cell "Location_Name") rs = map VStr locs →
  sum_list_with
    (λ s, length (filter (λ r, cell "Status" r = VStr "WARNING")
                    (filter (λ r, cell "Location_Name" r = VStr s) rs)))
    (distinct_first_seen locs)
  = length (filter (λ r, cell "Status" r = VStr "WARNING") rs).
Proof.
  intros E.
  destruct (filter_column_text (λ r, cell "Status" r = VStr "WARNING") _ _ _ E)
    as (locs' & E' & Hsub).
  rewrite (sum_list_with_ext _ (λ s, length (filter (λ x, x = s) locs'))).
  - rewrite occurrences_add_up_within.
    + apply (f_equal length) in E'. by rewrite !length_map in E'.
    + apply NoDup_distinct_first_seen.
    + intros x Hx. apply elem_of_distinct_first_seen. by apply Hsub.
  - intros s _. rewrite <- (length_filter_column _ _ _ s E').
    f_equal. rewrite !list_filter_filter. apply list_filter_iff. tauto.
Qed.

Lemma kpis_of_views (views : list DataFrame) :
  (∀ d, d ∈ views → ∃ k, compute_kpis d = Ok k) →
  ∃ ks, Forall2 (λ d k, compute_kpis d = Ok k) views ks.
Proof.
  induction views as [|d views IH]; intros H.
  - exists []. constructor.
  - destruct (H d) as [k Hk]; [by left|].
    destruct IH as [ks Hks]; [intros d' Hd'; apply H; by right|].
    exists (k :: ks). by constructor.
Qed.

Lemma breaches_of_views (views : list DataFrame) (ks : list KPIs) :
  Forall2 (λ d k, compute_kpis d = Ok k) views ks →
  Forall (λ d, df_empty d = false) views →
  sum_list_with total_breaches ks
  = sum_list_with
      (λ d, length (filter (λ r, cell "Status" r = VStr "WARNING") (rows d)))
      views.
Proof.
  induction 1 as [|d k views ks Hk _ IH]; intros Hne; [done|].
  apply Forall_cons in Hne as [Hd Hne]. simpl. rewrite IH by done.
  apply compute_kpis_Ok_inv in Hk as [[E _]|(_ & _ & _ & _ & _ & ->)]; [congruence|].
  done.
Qed.

(** X15. The breaches add up over the stages: when no stage is itself
    named "All Locations" and the key figures of the whole table can be
    computed, they can be computed for the view of every listed stage, and
    the breach counts of these views sum to the breach count of the whole
    table. *)
Theorem stage_breaches_add_up (df : DataFrame) (locs : list string) (k : KPIs) :
  getitem df "Location_Name" = Ok (map VStr locs) →
  "All Locations" ∉ locs →
  compute_kpis df = Ok k →
  ∃ names views ks,
    location_list df = Ok (VStr "All Locations" :: map VStr names) ∧
    Forall2 (λ s d, filter_data df s = Ok d) names views ∧
    Forall2 (λ d k', compute_kpis d = Ok k') views ks ∧
    sum_list_with total_breaches ks = total_breaches k.
Proof.
  intros Hcol Hall Hk. pose proof Hcol as Hcol'.
  apply getitem_Ok in Hcol' as [Hc Hmap]. symmetry in Hmap.
  set (view := λ s : string,
         {| columns := columns df;
            rows := filter (λ r, cell "Location_Name" r = VStr s) (rows df) |}).
  set (names := distinct_first_seen locs).
  assert (Forall2 (λ s d, filter_data df s = Ok d) names (map view names)) as Hviews.
  { assert (∀ s, s ∈ names → s ≠ all_locations) as Hne.
    { intros s Hs ->. apply Hall.
      by apply (proj1 (elem_of_distinct_first_seen _ _)). }
    induction names as [|s names' IH]; [constructor|].
    cbn [map]. constructor.
    - apply filter_data_location; [|done]. apply Hne. by left.
    - apply IH. intros t Ht. apply Hne. by right. }
  assert (Forall (λ d, df_empty d = false) (map view names)) as Hviews_ne.
  { apply Forall_forall. intros d Hd.
    apply list_elem_of_In, in_map_iff in Hd as (s & <- & Hs%list_elem_of_In).
    apply (proj1 (elem_of_distinct_first_seen _ _)) in Hs.
    pose proof (length_filter_column _ _ _ s Hmap) as Hlen.
    assert (s ∈ filter (λ x, x = s) locs) as Hin by (by apply list_elem_of_filter).
    unfold df_empty, view. cbn [rows columns].
    pose proof (has_column_columns_nonempty _ _ Hc).
    destruct (filter _ (rows df)); [|by destruct (columns df)].
    destruct (filter _ locs); [by apply elem_of_nil in Hin|done]. }
  assert (total_breaches k
          = length (filter (λ r, cell "Status" r = VStr "WARNING") (rows df)) ∧
          ∀ d, d ∈ map view names → ∃ k', compute_kpis d = Ok k') as [Hb Hks].
  { destruct (df_empty df) eqn:Hem.
    - assert (rows df = []) as Hrows.
      { unfold df_empty in Hem. pose proof (has_column_columns_nonempty _ _ Hc).
        destruct (rows df); [done|]. by destruct (columns df). }
      rewrite compute_kpis_empty in Hk by done. injection Hk as <-.
      rewrite Hrows. split; [done|].
      rewrite Hrows in Hmap. destruct locs; [|done]. by intros d ?%elem_of_nil.
    - destruct (compute_kpis_Ok_columns df k Hem Hk) as (Hp & Hs & Hnum).
      split.
      + apply compute_kpis_Ok_inv in Hk as [[E _]|(_ & _ & _ & _ & _ & ->)];
          [congruence|done].
      + intros d Hd. pose proof Hd as Hd'.
        apply (proj1 (Forall_forall _ _) Hviews_ne) in Hd'.
        apply list_elem_of_In, in_map_iff in Hd as (s & <- & _).
        apply compute_kpis_numeric_Ok; try done.
        intros v Hv. apply Hnum.
        apply list_elem_of_In, in_map_iff in Hv as (r & <- & Hr%list_elem_of_In).
        apply list_elem_of_filter in Hr as [_ Hr].
        apply list_elem_of_In, in_map. by apply list_elem_of_In. }
  destruct (kpis_of_views _ Hks) as [ks Hkpis].
  exists names, (map view names), ks. split_and!.
  - by apply location_list_text.
  - done.
  - done.
  - rewrite (breaches_of_views _ _ Hkpis Hviews_ne), Hb.
    rewrite <- (stage_breaches_sum _ _ Hmap). fold names.
    clear. induction names as [|s names' IH]; [done|]. simpl. by rewrite IH.
Qed.

(** X15 on the readings with a gap: one stage, one breach. *)
Lemma stage_breaches_add_up_witness :
  let k := {| avg_temp := Fin (-130 # 2); max_temp := Fin (-60 # 1);
              total_breaches := 1 |} in
  (getitem gappy "Location_Name" = Ok (map VStr ["SiteX"; "SiteX"; "SiteX"]) ∧
   ("All Locations" ∉ ["SiteX"; "SiteX"; "SiteX"]) ∧
   compute_kpis gappy = Ok k) ∧
  ∃ names views ks,
    location_list gappy = Ok (VStr "All Locations" :: map VStr names) ∧
    Forall2 (λ s d, filter_data gappy s = Ok d) names views ∧
    Forall2 (λ d k', compute_kpis d = Ok k') views ks ∧
    sum_list_with total_breaches ks = total_breaches k.
Proof.
  intros k.
  assert (getitem gappy "Location_Name" = Ok (map VStr ["SiteX"; "SiteX"; "SiteX"]))
    as H1 by reflexivity.
  assert ("All Locations" ∉ ["SiteX"; "SiteX"; "SiteX"]) as H2 by not_listed.
  assert (compute_kpis gappy = Ok k) as H3 by (vm_compute; reflexivity).
  split; [done|]. exact (stage_breaches_add_up gappy _ k H1 H2 H3).
Defined.
